(** * Zero-G-Engine scripting bridge: entity proxies over host functions

    A shallow embedding of [src/assembly/context.ts] (the bridge with the
    nested [Entity -> Transform -> Vec3] proxies and the cached [self()])
    and of the sample script [src/assembly/mover.ts].

    - [u32] entity ids are integers; the bridge only stores and compares
      them, so no wrap-around arithmetic occurs anywhere in the code.
    - [f32] values are IEEE-754 binary32 numbers, given by the Standard
      Library's [spec_float] with precision 24 and maximal exponent 128.
    - Class instances live in a heap of objects addressed by references;
      reference identity is equality of addresses.  The heap only grows:
      the code never writes to a field after the constructor has run.
    - The eighteen imported host functions are a parameter: a table that
      interprets each function name over an arbitrary host state.  Every
      call through a function reference is also appended to a call trace,
      which makes the number of host invocations observable. *)

From Stdlib Require Import ZArith QArith Qabs Lia Floats.SpecFloat.
From stdpp Require Import base decidable option list numbers.

Local Open Scope Z_scope.

(* ===================================================================== *)
(** ** Scalars *)
(* ===================================================================== *)

Abbreviation u32 := Z.
Abbreviation f32 := spec_float.

Definition f32_prec : Z := 24.
Definition f32_emax : Z := 128.

Definition is_f32 (v : f32) : bool := valid_binary f32_prec f32_emax v.

Definition f32_add : f32 -> f32 -> f32 := SFadd f32_prec f32_emax.
Definition f32_mul : f32 -> f32 -> f32 := SFmul f32_prec f32_emax.

(** The exact rational value of a finite binary32 number. *)
Definition f32_to_Q (v : f32) : option Q :=
  match v with
  | S754_zero _ => Some 0%Q
  | S754_finite s m e =>
      let mag := (inject_Z (Z.pos m) * Qpower 2 e)%Q in
      Some (if s then Qopp mag else mag)
  | S754_infinity _ | S754_nan => None
  end.

(** [v] is the binary32 number nearest to the rational [q]: it is a valid
    normal binary32 value and lies within half a unit in the last place. *)
Definition f32_nearest (q : Q) (v : f32) : bool :=
  is_f32 v &&
  match v, f32_to_Q v with
  | S754_finite _ _ e, Some x =>
      if Qle_bool (Qabs (x - q)) (Qpower 2 (e - 1)) then true else false
  | _, _ => false
  end.

(** Float literals of the sample script, as binary32 values. *)
Definition f32_neg_2_0 : f32 := S754_finite true 8388608 (-22).  (* -2.0 *)
Definition f32_1_0 : f32 := S754_finite false 8388608 (-23).     (* 1.0 *)
Definition f32_1_01 : f32 := S754_finite false 8472494 (-23).    (* 1.01 *)
Definition f32_0_5 : f32 := S754_finite false 8388608 (-24).     (* 0.5 *)

(* ===================================================================== *)
(** ** Host functions provided by Rust (from the "context" module) *)
(* ===================================================================== *)

(** Function references are names of imported functions. *)
Inductive HostGetter : Type :=
  | get_entity_position_x | get_entity_position_y | get_entity_position_z
  | get_entity_rotation_x | get_entity_rotation_y | get_entity_rotation_z
  | get_entity_scale_x | get_entity_scale_y | get_entity_scale_z.

Inductive HostSetter : Type :=
  | set_entity_position_x | set_entity_position_y | set_entity_position_z
  | set_entity_rotation_x | set_entity_rotation_y | set_entity_rotation_z
  | set_entity_scale_x | set_entity_scale_y | set_entity_scale_z.

#[global] Instance HostGetter_eq_dec : EqDecision HostGetter.
Proof. solve_decision. Defined.

#[global] Instance HostSetter_eq_dec : EqDecision HostSetter.
Proof. solve_decision. Defined.

(** One invocation of a host function, as the host sees it. *)
Inductive HostCall : Type :=
  | CallGet (g : HostGetter) (id : u32)
  | CallSet (s : HostSetter) (id : u32) (val : f32).

(** The host side of the boundary: what each imported function does to the
    host's own state [H].  A getter may change that state too (a mock that
    counts calls does). *)
Record HostTable (H : Type) : Type := {
  host_get : HostGetter -> u32 -> H -> f32 * H;
  host_set : HostSetter -> u32 -> f32 -> H -> H
}.
Arguments host_get {H} _ _ _ _.
Arguments host_set {H} _ _ _ _ _.

(** Channels of the host table, and the naming convention
    [get_entity_<category>_<axis>] / [set_entity_<category>_<axis>]. *)
Inductive Category : Type := Position | Rotation | Scale.
Inductive Axis : Type := X | Y | Z_axis.

Definition getter_of (c : Category) (a : Axis) : HostGetter :=
  match c, a with
  | Position, X => get_entity_position_x
  | Position, Y => get_entity_position_y
  | Position, Z_axis => get_entity_position_z
  | Rotation, X => get_entity_rotation_x
  | Rotation, Y => get_entity_rotation_y
  | Rotation, Z_axis => get_entity_rotation_z
  | Scale, X => get_entity_scale_x
  | Scale, Y => get_entity_scale_y
  | Scale, Z_axis => get_entity_scale_z
  end.

Definition setter_of (c : Category) (a : Axis) : HostSetter :=
  match c, a with
  | Position, X => set_entity_position_x
  | Position, Y => set_entity_position_y
  | Position, Z_axis => set_entity_position_z
  | Rotation, X => set_entity_rotation_x
  | Rotation, Y => set_entity_rotation_y
  | Rotation, Z_axis => set_entity_rotation_z
  | Scale, X => set_entity_scale_x
  | Scale, Y => set_entity_scale_y
  | Scale, Z_axis => set_entity_scale_z
  end.

(** The getter that reads the channel a setter writes. *)
Definition getter_for (s : HostSetter) : HostGetter :=
  match s with
  | set_entity_position_x => get_entity_position_x
  | set_entity_position_y => get_entity_position_y
  | set_entity_position_z => get_entity_position_z
  | set_entity_rotation_x => get_entity_rotation_x
  | set_entity_rotation_y => get_entity_rotation_y
  | set_entity_rotation_z => get_entity_rotation_z
  | set_entity_scale_x => get_entity_scale_x
  | set_entity_scale_y => get_entity_scale_y
  | set_entity_scale_z => get_entity_scale_z
  end.

(* ===================================================================== *)
(** ** Objects and the guest state *)
(* ===================================================================== *)

(** References are heap addresses. *)
Abbreviation ref := nat.

(** [class Vec3]: the bound id and six function references. *)
Record Vec3 : Type := {
  Vec3_id : u32;
  getterX : HostGetter;
  setterX : HostSetter;
  getterY : HostGetter;
  setterY : HostSetter;
  getterZ : HostGetter;
  setterZ : HostSetter
}.

(** [class Transform]: three references to [Vec3] objects.  The constructor
    parameter [id] is not a property of the class. *)
Record Transform : Type := {
  position : ref;
  rotation : ref;
  scale : ref
}.

(** [class Entity]: the public [id] and a reference to a [Transform]. *)
Record Entity : Type := {
  Entity_id : u32;
  transform : ref
}.

Inductive Obj : Type :=
  | OVec3 (v : Vec3)
  | OTransform (t : Transform)
  | OEntity (e : Entity).

(** Module-level state of the guest ([currentEntityId], [_self]), its heap,
    the host's state and the trace of host calls made so far. *)
Record State (H : Type) : Type := mkState {
  currentEntityId : u32;
  _self : option ref;
  heap : list Obj;
  host : H;
  trace : list HostCall
}.
Arguments mkState {H} _ _ _ _ _.
Arguments currentEntityId {H} _.
Arguments _self {H} _.
Arguments heap {H} _.
Arguments host {H} _.
Arguments trace {H} _.

(** State of a freshly instantiated module: [let currentEntityId: u32 = 0]
    and [let _self: Entity | null = null]. *)
Definition init_state {H : Type} (h0 : H) : State H :=
  mkState 0 None [] h0 [].

(* ===================================================================== *)
(** ** The guest monad: state passing with traps *)
(* ===================================================================== *)

Definition M (H A : Type) : Type := State H -> option (A * State H).

Definition ret {H A : Type} (a : A) : M H A := fun s => Some (a, s).

Definition bind {H A B : Type} (m : M H A) (k : A -> M H B) : M H B :=
  fun s => match m s with
           | Some (a, s') => k a s'
           | None => None
           end.

(** Abnormal termination of the guest (a failed non-null assertion or a
    reference that does not hold the expected class). *)
Definition trap {H A : Type} : M H A := fun _ => None.

Notation "x <- c1 ;; c2" := (bind c1 (fun x => c2))
  (at level 20, c1 at level 99, c2 at level 200, only parsing).
Notation "c1 ;; c2" := (bind c1 (fun _ => c2))
  (at level 100, c2 at level 200, only parsing).

Section Bridge.

Context {H : Type}.
Variable table : HostTable H.

Abbreviation St := (State H).
Abbreviation Guest := (M H).

(** *** Heap primitives *)

(** [new C(...)]: the finished object is placed at the next free address. *)
Definition alloc (o : Obj) : Guest ref :=
  fun s => Some (length (heap s),
                 mkState (currentEntityId s) (_self s) (heap s ++ [o])
                         (host s) (trace s)).

Definition load (r : ref) : Guest Obj :=
  fun s => match heap s !! r with
           | Some o => Some (o, s)
           | None => None
           end.

Definition load_Vec3 (r : ref) : Guest Vec3 :=
  o <- load r ;;
  match o with OVec3 v => ret v | _ => trap end.

Definition load_Transform (r : ref) : Guest Transform :=
  o <- load r ;;
  match o with OTransform t => ret t | _ => trap end.

Definition load_Entity (r : ref) : Guest Entity :=
  o <- load r ;;
  match o with OEntity e => ret e | _ => trap end.

(** *** Calls across the guest/host boundary *)

Definition call_getter (g : HostGetter) (id : u32) : Guest f32 :=
  fun s => let (v, h') := host_get table g id (host s) in
           Some (v, mkState (currentEntityId s) (_self s) (heap s) h'
                            (trace s ++ [CallGet g id])).

Definition call_setter (st : HostSetter) (id : u32) (val : f32) : Guest unit :=
  fun s => Some (tt, mkState (currentEntityId s) (_self s) (heap s)
                             (host_set table st id val (host s))
                             (trace s ++ [CallSet st id val])).

(** *** Global state *)

Definition read_currentEntityId : Guest u32 :=
  fun s => Some (currentEntityId s, s).

Definition read_self : Guest (option ref) :=
  fun s => Some (_self s, s).

Definition write_self (c : option ref) : Guest unit :=
  fun s => Some (tt, mkState (currentEntityId s) c (heap s) (host s) (trace s)).

(** [export function setCurrentEntity(id: u32): void] *)
Definition setCurrentEntity (id : u32) : Guest unit :=
  fun s => Some (tt, mkState id (_self s) (heap s) (host s) (trace s)).

(** *** Vec3 proxy *)

Definition new_Vec3 (id : u32)
    (gx : HostGetter) (sx : HostSetter)
    (gy : HostGetter) (sy : HostSetter)
    (gz : HostGetter) (sz : HostSetter) : Guest ref :=
  alloc (OVec3 {| Vec3_id := id;
                  getterX := gx; setterX := sx;
                  getterY := gy; setterY := sy;
                  getterZ := gz; setterZ := sz |}).

Definition Vec3_get_x (this : ref) : Guest f32 :=
  v <- load_Vec3 this ;; call_getter (getterX v) (Vec3_id v).
Definition Vec3_set_x (this : ref) (val : f32) : Guest unit :=
  v <- load_Vec3 this ;; call_setter (setterX v) (Vec3_id v) val.

Definition Vec3_get_y (this : ref) : Guest f32 :=
  v <- load_Vec3 this ;; call_getter (getterY v) (Vec3_id v).
Definition Vec3_set_y (this : ref) (val : f32) : Guest unit :=
  v <- load_Vec3 this ;; call_setter (setterY v) (Vec3_id v) val.

Definition Vec3_get_z (this : ref) : Guest f32 :=
  v <- load_Vec3 this ;; call_getter (getterZ v) (Vec3_id v).
Definition Vec3_set_z (this : ref) (val : f32) : Guest unit :=
  v <- load_Vec3 this ;; call_setter (setterZ v) (Vec3_id v) val.

(** *** Transform proxy *)

Definition new_Transform (id : u32) : Guest ref :=
  p <- new_Vec3 id
         get_entity_position_x set_entity_position_x
         get_entity_position_y set_entity_position_y
         get_entity_position_z set_entity_position_z ;;
  r <- new_Vec3 id
         get_entity_rotation_x set_entity_rotation_x
         get_entity_rotation_y set_entity_rotation_y
         get_entity_rotation_z set_entity_rotation_z ;;
  sc <- new_Vec3 id
          get_entity_scale_x set_entity_scale_x
          get_entity_scale_y set_entity_scale_y
          get_entity_scale_z set_entity_scale_z ;;
  alloc (OTransform {| position := p; rotation := r; scale := sc |}).

Definition Transform_position (this : ref) : Guest ref :=
  t <- load_Transform this ;; ret (position t).
Definition Transform_rotation (this : ref) : Guest ref :=
  t <- load_Transform this ;; ret (rotation t).
Definition Transform_scale (this : ref) : Guest ref :=
  t <- load_Transform this ;; ret (scale t).

(** *** Entity proxy *)

Definition new_Entity (id : u32) : Guest ref :=
  t <- new_Transform id ;;
  alloc (OEntity {| Entity_id := id; transform := t |}).

Definition Entity_get_id (this : ref) : Guest u32 :=
  e <- load_Entity this ;; ret (Entity_id e).
Definition Entity_transform (this : ref) : Guest ref :=
  e <- load_Entity this ;; ret (transform e).

(** *** self() accessor *)

(** [_self == null || _self!.id != currentEntityId] *)
Definition self_is_stale : Guest bool :=
  c <- read_self ;;
  match c with
  | None => ret true
  | Some r =>
      i <- Entity_get_id r ;;
      cur <- read_currentEntityId ;;
      ret (negb (i =? cur))
  end.

(** [export function self(): Entity] *)
Definition self : Guest ref :=
  stale <- self_is_stale ;;
  (if stale : bool
   then (cur <- read_currentEntityId ;;
         e <- new_Entity cur ;;
         write_self (Some e))
   else ret tt) ;;
  c <- read_self ;;
  match c with
  | Some r => ret r
  | None => trap
  end.

(** *** Script lifecycle functions of the bridge itself (empty bodies) *)

Definition init : Guest unit := ret tt.
Definition update (deltaTime : f32) : Guest unit := ret tt.

(** *** Property paths used by scripts *)

(** [self().transform.position], [.rotation], [.scale] *)
Definition Transform_field (c : Category) (this : ref) : Guest ref :=
  match c with
  | Position => Transform_position this
  | Rotation => Transform_rotation this
  | Scale => Transform_scale this
  end.

Definition self_transform (c : Category) : Guest ref :=
  e <- self ;;
  t <- Entity_transform e ;;
  Transform_field c t.

Definition Vec3_get (a : Axis) (this : ref) : Guest f32 :=
  match a with
  | X => Vec3_get_x this
  | Y => Vec3_get_y this
  | Z_axis => Vec3_get_z this
  end.

Definition Vec3_set (a : Axis) (this : ref) (val : f32) : Guest unit :=
  match a with
  | X => Vec3_set_x this val
  | Y => Vec3_set_y this val
  | Z_axis => Vec3_set_z this val
  end.

(** [self().transform.<c>.<a>] as an rvalue *)
Definition read_channel (c : Category) (a : Axis) : Guest f32 :=
  v <- self_transform c ;; Vec3_get a v.

(** [self().transform.<c>.<a> = val] *)
Definition write_channel (c : Category) (a : Axis) (val : f32) : Guest unit :=
  v <- self_transform c ;; Vec3_set a v val.

(* ===================================================================== *)
(** ** The sample script, [src/assembly/mover.ts] *)
(* ===================================================================== *)

(** [console.log(...)]: the arguments are evaluated (which may call host
    getters); the text itself leaves the guest and is not part of the
    modelled state. *)
Definition console_log {A : Type} (message : A) : Guest unit := ret tt.

Definition mover_init : Guest unit :=
  console_log tt ;;
  write_channel Position X f32_neg_2_0 ;;
  write_channel Position Y f32_1_0 ;;
  x <- read_channel Position X ;;
  y <- read_channel Position Y ;;
  console_log (x, y).

(** [self().transform.position.<a> += inc]: the receiver is evaluated for
    the store and for the load; the load precedes the store. *)
Definition add_assign_position (a : Axis) (inc : f32) : Guest unit :=
  target <- self_transform Position ;;
  old <- read_channel Position a ;;
  Vec3_set a target (f32_add old inc).

Definition mover_update (dt : f32) : Guest unit :=
  oldX <- read_channel Position X ;;
  oldY <- read_channel Position Y ;;
  add_assign_position X (f32_mul dt f32_1_01) ;;
  add_assign_position Y (f32_mul dt f32_1_01) ;;
  newX <- read_channel Position X ;;
  newY <- read_channel Position Y ;;
  console_log (oldX, newX, oldY, newY).

(* ===================================================================== *)
(** ** Operations on a module instance and reachable states *)
(* ===================================================================== *)

(** What can happen to a module instance: the host calls an export, the
    guest calls [self()] or goes through a [Vec3] it holds, or the host
    changes its own state between guest calls. *)
Inductive Op : Type :=
  | OpSetCurrentEntity (id : u32)
  | OpSelf
  | OpVec3Get (a : Axis) (this : ref)
  | OpVec3Set (a : Axis) (this : ref) (val : f32)
  | OpInit
  | OpUpdate (deltaTime : f32)
  | OpMoverInit
  | OpMoverUpdate (dt : f32)
  | OpHost (f : H -> H).

Definition host_step (f : H -> H) : Guest unit :=
  fun s => Some (tt, mkState (currentEntityId s) (_self s) (heap s)
                             (f (host s)) (trace s)).

Definition exec (o : Op) : Guest unit :=
  match o with
  | OpSetCurrentEntity id => setCurrentEntity id
  | OpSelf => self ;; ret tt
  | OpVec3Get a this => Vec3_get a this ;; ret tt
  | OpVec3Set a this val => Vec3_set a this val
  | OpInit => init
  | OpUpdate deltaTime => update deltaTime
  | OpMoverInit => mover_init
  | OpMoverUpdate dt => mover_update dt
  | OpHost f => host_step f
  end.

Fixpoint run (ops : list Op) : Guest unit :=
  match ops with
  | [] => ret tt
  | o :: rest => exec o ;; run rest
  end.

Definition is_setCurrentEntity (o : Op) : bool :=
  match o with OpSetCurrentEntity _ => true | _ => false end.

Inductive Reachable : St -> Prop :=
  | reach_init (h0 : H) : Reachable (init_state h0)
  | reach_step (s s' : St) (o : Op) :
      Reachable s -> exec o s = Some (tt, s') -> Reachable s'.

(* ===================================================================== *)
(** ** Structural invariants *)
(* ===================================================================== *)

Definition Vec3_id_at (hp : list Obj) (r : ref) : option u32 :=
  match hp !! r with
  | Some (OVec3 v) => Some (Vec3_id v)
  | _ => None
  end.

(** The transform of [e] exists and its three [Vec3] are bound to the id of
    [e]. *)
Definition same_entityId (hp : list Obj) (e : Entity) : bool :=
  match hp !! transform e with
  | Some (OTransform t) =>
      bool_decide (Vec3_id_at hp (position t) = Some (Entity_id e)) &&
      bool_decide (Vec3_id_at hp (rotation t) = Some (Entity_id e)) &&
      bool_decide (Vec3_id_at hp (scale t) = Some (Entity_id e))
  | _ => false
  end.

(** The [Vec3] at [r] carries the accessor pairs of category [c]. *)
Definition wired_as (hp : list Obj) (c : Category) (r : ref) : bool :=
  match hp !! r with
  | Some (OVec3 v) =>
      bool_decide (getterX v = getter_of c X) &&
      bool_decide (setterX v = setter_of c X) &&
      bool_decide (getterY v = getter_of c Y) &&
      bool_decide (setterY v = setter_of c Y) &&
      bool_decide (getterZ v = getter_of c Z_axis) &&
      bool_decide (setterZ v = setter_of c Z_axis)
  | _ => false
  end.

Definition wired (hp : list Obj) (e : Entity) : bool :=
  match hp !! transform e with
  | Some (OTransform t) =>
      wired_as hp Position (position t) &&
      wired_as hp Rotation (rotation t) &&
      wired_as hp Scale (scale t)
  | _ => false
  end.

Definition obj_ok (hp : list Obj) (o : Obj) : bool :=
  match o with
  | OEntity e => same_entityId hp e && wired hp e
  | _ => true
  end.

Definition heap_ok (hp : list Obj) : bool := forallb (obj_ok hp) hp.

(** The cache, when present, refers to an [Entity]. *)
Definition cache_ok (s : St) : bool :=
  match _self s with
  | None => true
  | Some r => match heap s !! r with
              | Some (OEntity _) => true
              | _ => false
              end
  end.

Definition wf (s : St) : bool := heap_ok (heap s) && cache_ok s.

(** The id the cached handle was built for. *)
Definition cached_id (s : St) : option u32 :=
  match _self s with
  | None => None
  | Some r => match heap s !! r with
              | Some (OEntity e) => Some (Entity_id e)
              | _ => None
              end
  end.

(** A cached handle exists and its id is the current entity id. *)
Definition cache_hit (s : St) : bool :=
  match cached_id s with
  | Some i => i =? currentEntityId s
  | None => false
  end.

(** Host tables that behave as a store: reading a channel returns the value
    last written to it and has no effect on any channel; writing changes
    only the written channel of the written entity. *)
Record FaithfulStore (peek : H -> HostGetter -> u32 -> f32) : Prop := {
  get_returns : forall g id h, fst (host_get table g id h) = peek h g id;
  get_keeps : forall g id h g' id',
      peek (snd (host_get table g id h)) g' id' = peek h g' id';
  set_stores : forall st id v h,
      peek (host_set table st id v h) (getter_for st) id = v;
  set_keeps : forall st id v h g' id',
      (g', id') <> (getter_for st, id) ->
      peek (host_set table st id v h) g' id' = peek h g' id'
}.

(** The weaker law for one channel: a read that directly follows a write of
    the same entity returns the written value. *)
Definition faithful_pair (c : Category) (a : Axis) : Prop :=
  forall id v h,
    fst (host_get table (getter_of c a) id
           (host_set table (setter_of c a) id v h)) = v.

End Bridge.

(* ===================================================================== *)
(** ** A mock host table *)
(* ===================================================================== *)

(** A table backed by a total store, counting the calls it receives. *)
Record Mock : Type := {
  cells : HostGetter -> u32 -> f32;
  get_calls : nat;
  set_calls : nat
}.

Definition mock_empty : Mock :=
  {| cells := fun _ _ => S754_zero false; get_calls := 0; set_calls := 0 |}.

Definition mock_table : HostTable Mock := {|
  host_get := fun g id m =>
    (cells m g id,
     {| cells := cells m; get_calls := S (get_calls m);
        set_calls := set_calls m |});
  host_set := fun st id v m =>
    {| cells := fun g' id' =>
         if bool_decide (g' = getter_for st) && (id' =? id)
         then v else cells m g' id';
       get_calls := get_calls m;
       set_calls := S (set_calls m) |}
|}.

(* ===================================================================== *)
(** ** Closed forms of the constructors and of [self()] *)
(* ===================================================================== *)

(** The objects that [new Entity(id)] lays down from free address [n] on:
    the three [Vec3], the [Transform], then the [Entity] itself. *)
Definition entity_objs (n : nat) (id : u32) : list Obj :=
  [ OVec3 {| Vec3_id := id;
             getterX := get_entity_position_x; setterX := set_entity_position_x;
             getterY := get_entity_position_y; setterY := set_entity_position_y;
             getterZ := get_entity_position_z; setterZ := set_entity_position_z |};
    OVec3 {| Vec3_id := id;
             getterX := get_entity_rotation_x; setterX := set_entity_rotation_x;
             getterY := get_entity_rotation_y; setterY := set_entity_rotation_y;
             getterZ := get_entity_rotation_z; setterZ := set_entity_rotation_z |};
    OVec3 {| Vec3_id := id;
             getterX := get_entity_scale_x; setterX := set_entity_scale_x;
             getterY := get_entity_scale_y; setterY := set_entity_scale_y;
             getterZ := get_entity_scale_z; setterZ := set_entity_scale_z |};
    OTransform {| position := n; rotation := S n; scale := S (S n) |};
    OEntity {| Entity_id := id; transform := S (S (S n)) |} ].

(** The state after [self()] has rebuilt the handle. *)
Definition rebuilt {H : Type} (s : State H) : State H :=
  mkState (currentEntityId s) (Some (4 + length (heap s))%nat)
          (heap s ++ entity_objs (length (heap s)) (currentEntityId s))
          (host s) (trace s).

(** The state after a call of [self()]: the same state on a cache hit, the
    rebuilt one otherwise. *)
Definition settle {H : Type} (s : State H) : State H :=
  if cache_hit s then s else rebuilt s.

Definition Transform_proj (c : Category) (t : Transform) : ref :=
  match c with
  | Position => position t
  | Rotation => rotation t
  | Scale => scale t
  end.

Definition getter_at (a : Axis) (v : Vec3) : HostGetter :=
  match a with X => getterX v | Y => getterY v | Z_axis => getterZ v end.

Definition setter_at (a : Axis) (v : Vec3) : HostSetter :=
  match a with X => setterX v | Y => setterY v | Z_axis => setterZ v end.

(** The state after one getter call, and after one setter call. *)
Definition got {H : Type} (table : HostTable H) (g : HostGetter) (id : u32)
    (s : State H) : State H :=
  mkState (currentEntityId s) (_self s) (heap s)
          (snd (host_get table g id (host s)))
          (trace s ++ [CallGet g id]).

Definition put {H : Type} (table : HostTable H) (st : HostSetter) (id : u32)
    (val : f32) (s : State H) : State H :=
  mkState (currentEntityId s) (_self s) (heap s)
          (host_set table st id val (host s))
          (trace s ++ [CallSet st id val]).

(** The state after [self().transform.position.<a> += inc] in a settled
    state. *)
Definition add_assign_state {H : Type} (table : HostTable H) (a : Axis)
    (inc : f32) (s : State H) : State H :=
  let id := currentEntityId s in
  let old := fst (host_get table (getter_of Position a) id (host s)) in
  put table (setter_of Position a) id (f32_add old inc)
      (got table (getter_of Position a) id s).

(** The states after [init()] and [update(dt)] of the sample script. *)
Definition mover_init_state {H : Type} (table : HostTable H) (s : State H)
    : State H :=
  let id := currentEntityId s in
  got table get_entity_position_y id
    (got table get_entity_position_x id
       (put table set_entity_position_y id f32_1_0
          (put table set_entity_position_x id f32_neg_2_0 (settle s)))).

Definition mover_update_state {H : Type} (table : HostTable H) (dt : f32)
    (s : State H) : State H :=
  let id := currentEntityId s in
  let inc := f32_mul dt f32_1_01 in
  got table get_entity_position_y id
    (got table get_entity_position_x id
       (add_assign_state table Y inc
          (add_assign_state table X inc
             (got table get_entity_position_y id
                (got table get_entity_position_x id (settle s)))))).

(** [self()] builds a handle: it returns a reference to a new [Entity] that
    is bound to the current entity id, stores it as the cache, and changes
    nothing else. *)
Definition rebuilds {H : Type} (s : State H) : Prop :=
  exists (r : ref) (s' : State H) (e : Entity),
    self s = Some (r, s') /\
    heap s !! r = None /\
    heap s' !! r = Some (OEntity e) /\
    Entity_id e = currentEntityId s /\
    same_entityId (heap s') e = true /\
    wired (heap s') e = true /\
    _self s' = Some r /\
    currentEntityId s' = currentEntityId s /\
    host s' = host s /\
    trace s' = trace s /\
    (forall (r0 : ref) (o : Obj),
        heap s !! r0 = Some o -> heap s' !! r0 = Some o).

(** The state right after [setCurrentEntity(id)]. *)
Definition with_current {H : Type} (id : u32) (s : State H) : State H :=
  mkState id (_self s) (heap s) (host s) (trace s).

(** The host switches to [e1], then to [e2], then back to [e1], and the
    guest calls [self()] after each switch. *)
Definition switch_back {H : Type} (e1 e2 : u32) : M H (ref * ref * ref) :=
  setCurrentEntity e1 ;;
  h1 <- self ;;
  setCurrentEntity e2 ;;
  h2 <- self ;;
  setCurrentEntity e1 ;;
  h3 <- self ;;
  ret (h1, h2, h3).

(** [n] consecutive calls of [self()], collecting the returned handles. *)
Fixpoint self_calls {H : Type} (n : nat) : M H (list ref) :=
  match n with
  | O => ret []
  | S n' => r <- self ;; rs <- self_calls n' ;; ret (r :: rs)
  end.

(** The compound assignment with the receiver evaluated once, as
    ECMAScript would evaluate it. *)
Definition add_assign_position_once {H : Type} (table : HostTable H)
    (a : Axis) (inc : f32) : M H unit :=
  target <- self_transform Position ;;
  old <- Vec3_get table a target ;;
  Vec3_set table a target (f32_add old inc).

(** [self().transform.position.x] read twice in a row. *)
Definition read_position_x_twice {H : Type} (table : HostTable H)
    : M H (f32 * f32) :=
  x1 <- read_channel table Position X ;;
  x2 <- read_channel table Position X ;;
  ret (x1, x2).

(** The host sets the current entity to [7] and calls [init()]. *)
Definition mover_start {H : Type} (table : HostTable H) : M H unit :=
  setCurrentEntity 7 ;; mover_init table.

(** Final position of the sample scenario, as binary32 values. *)
Definition mover_final_x : f32 := S754_finite true 12540969 (-23).
Definition mover_final_y : f32 := S754_finite false 12624855 (-23).

(** Sample states over the mock table: the state in which [self()] has been
    called for entity [7], and the one in which the host has then switched
    to entity [9]. *)
Definition state_after (ops : list (Op (H := Mock))) : State Mock :=
  match run mock_table ops (init_state mock_empty) with
  | Some (_, s) => s
  | None => init_state mock_empty
  end.

Definition mock_hit : State Mock :=
  state_after [OpSetCurrentEntity 7; OpSelf].

Definition mock_stale : State Mock :=
  state_after [OpSetCurrentEntity 7; OpSelf; OpSetCurrentEntity 9].

(** The handle that [mock_hit] caches, at address [4]. *)
Definition entity_7 : Entity := {| Entity_id := 7; transform := 3 |}.

(** Operations without [setCurrentEntity], used to exercise the cache. *)
Definition busy_ops : list (Op (H := Mock)) :=
  [OpSelf; OpMoverInit; OpVec3Get X 0%nat; OpMoverUpdate f32_0_5;
   OpHost (fun m => m); OpSelf].

(** Two states with the same guest part: only the host's state and the call
    trace may differ. *)
Definition same_guest {H : Type} (s s' : State H) : Prop :=
  currentEntityId s' = currentEntityId s /\
  _self s' = _self s /\
  heap s' = heap s.

(* ===================================================================== *)
(** ** Further programs over the bridge *)
(* ===================================================================== *)

(** The function and the entity of a host call, without the value a setter
    call carries. *)
Inductive HostFn : Type :=
  | Getter (g : HostGetter)
  | Setter (st : HostSetter).

Definition called (c : HostCall) : HostFn * u32 :=
  match c with
  | CallGet g id => (Getter g, id)
  | CallSet st id _ => (Setter st, id)
  end.


(** A script writes a channel of entity [e1]; later another entity [e2] is
    current and one of its channels is read. *)
Definition write_then_read_other {H : Type} (table : HostTable H)
    (e1 e2 : u32) (c : Category) (a : Axis) (v : f32)
    (c' : Category) (a' : Axis) : M H f32 :=
  setCurrentEntity e1 ;;
  write_channel table c a v ;;
  setCurrentEntity e2 ;;
  read_channel table c' a'.

(** A script writes a channel of [e1], a script of [e2] writes one of its
    own, then [e1] is current again and reads its channel back. *)
Definition write_visit_read {H : Type} (table : HostTable H)
    (e1 e2 : u32) (c : Category) (a : Axis) (v : f32)
    (c' : Category) (a' : Axis) (w : f32) : M H f32 :=
  setCurrentEntity e1 ;;
  write_channel table c a v ;;
  setCurrentEntity e2 ;;
  write_channel table c' a' w ;;
  setCurrentEntity e1 ;;
  read_channel table c a.

(* ===================================================================== *)
(** ** The flattened bridge and its script

    The second [context.ts] (with [class EntityProxy] and an uncached
    [self()]) and the [mover.ts] written against it.  It is a module of
    its own, with its own state; it imports the six position functions
    under the same names. *)
(* ===================================================================== *)

(** [class EntityProxy]: the private [id]. *)
Record EntityProxy : Type := { EntityProxy_id : u32 }.

Record FlatState (H : Type) : Type := mkFlat {
  flat_currentEntityId : u32;
  flat_heap : list EntityProxy;
  flat_host : H;
  flat_trace : list HostCall
}.
Arguments mkFlat {H} _ _ _ _.
Arguments flat_currentEntityId {H} _.
Arguments flat_heap {H} _.
Arguments flat_host {H} _.
Arguments flat_trace {H} _.

Definition flat_init_state {H : Type} (h0 : H) : FlatState H :=
  mkFlat 0 [] h0 [].

Definition FlatM (H A : Type) : Type :=
  FlatState H -> option (A * FlatState H).

Definition flat_ret {H A : Type} (a : A) : FlatM H A := fun s => Some (a, s).

Definition flat_bind {H A B : Type} (m : FlatM H A) (k : A -> FlatM H B)
    : FlatM H B :=
  fun s => match m s with
           | Some (a, s') => k a s'
           | None => None
           end.

Notation "x <~ c1 ;; c2" := (flat_bind c1 (fun x => c2))
  (at level 20, c1 at level 99, c2 at level 200, only parsing).

Section FlatBridge.

Context {H : Type}.
Variable table : HostTable H.

Abbreviation Flat := (FlatM H).

Definition flat_read_currentEntityId : Flat u32 :=
  fun s => Some (flat_currentEntityId s, s).

(** [export function setCurrentEntity(id: u32): void] *)
Definition flat_setCurrentEntity (id : u32) : Flat unit :=
  fun s => Some (tt, mkFlat id (flat_heap s) (flat_host s) (flat_trace s)).

(** [new EntityProxy(id)] *)
Definition new_EntityProxy (id : u32) : Flat ref :=
  fun s => Some (length (flat_heap s),
                 mkFlat (flat_currentEntityId s)
                        (flat_heap s ++ [{| EntityProxy_id := id |}])
                        (flat_host s) (flat_trace s)).

Definition load_EntityProxy (r : ref) : Flat EntityProxy :=
  fun s => match flat_heap s !! r with
           | Some p => Some (p, s)
           | None => None
           end.

Definition flat_call_getter (g : HostGetter) (id : u32) : Flat f32 :=
  fun s => let (v, h') := host_get table g id (flat_host s) in
           Some (v, mkFlat (flat_currentEntityId s) (flat_heap s) h'
                           (flat_trace s ++ [CallGet g id])).

Definition flat_call_setter (st : HostSetter) (id : u32) (val : f32)
    : Flat unit :=
  fun s => Some (tt, mkFlat (flat_currentEntityId s) (flat_heap s)
                            (host_set table st id val (flat_host s))
                            (flat_trace s ++ [CallSet st id val])).

Definition EntityProxy_get_positionX (this : ref) : Flat f32 :=
  p <~ load_EntityProxy this ;;
  flat_call_getter get_entity_position_x (EntityProxy_id p).
Definition EntityProxy_set_positionX (this : ref) (val : f32) : Flat unit :=
  p <~ load_EntityProxy this ;;
  flat_call_setter set_entity_position_x (EntityProxy_id p) val.

Definition EntityProxy_get_positionY (this : ref) : Flat f32 :=
  p <~ load_EntityProxy this ;;
  flat_call_getter get_entity_position_y (EntityProxy_id p).
Definition EntityProxy_set_positionY (this : ref) (val : f32) : Flat unit :=
  p <~ load_EntityProxy this ;;
  flat_call_setter set_entity_position_y (EntityProxy_id p) val.

Definition EntityProxy_get_positionZ (this : ref) : Flat f32 :=
  p <~ load_EntityProxy this ;;
  flat_call_getter get_entity_position_z (EntityProxy_id p).
Definition EntityProxy_set_positionZ (this : ref) (val : f32) : Flat unit :=
  p <~ load_EntityProxy this ;;
  flat_call_setter set_entity_position_z (EntityProxy_id p) val.

(** [export function self(): EntityProxy]: a new proxy on every call. *)
Definition flat_self : Flat ref :=
  cur <~ flat_read_currentEntityId ;;
  new_EntityProxy cur.

(** The script: [self().positionX = -2.0] and
    [self().positionX += dt * 1.01]. *)
Definition flat_mover_init : Flat unit :=
  p <~ flat_self ;;
  EntityProxy_set_positionX p f32_neg_2_0.

Definition flat_mover_update (dt : f32) : Flat unit :=
  target <~ flat_self ;;
  p <~ flat_self ;;
  old <~ EntityProxy_get_positionX p ;;
  EntityProxy_set_positionX target (f32_add old (f32_mul dt f32_1_01)).

(** Access to a position axis through a proxy, and through [self()]. *)
Definition EntityProxy_get (a : Axis) (this : ref) : Flat f32 :=
  match a with
  | X => EntityProxy_get_positionX this
  | Y => EntityProxy_get_positionY this
  | Z_axis => EntityProxy_get_positionZ this
  end.

Definition EntityProxy_set (a : Axis) (this : ref) (val : f32) : Flat unit :=
  match a with
  | X => EntityProxy_set_positionX this val
  | Y => EntityProxy_set_positionY this val
  | Z_axis => EntityProxy_set_positionZ this val
  end.

Definition flat_read (a : Axis) : Flat f32 :=
  p <~ flat_self ;; EntityProxy_get a p.

Definition flat_write (a : Axis) (val : f32) : Flat unit :=
  p <~ flat_self ;; EntityProxy_set a p val.

(** Two calls of [self()] in a row. *)
Definition flat_self_twice : Flat (ref * ref) :=
  r1 <~ flat_self ;;
  r2 <~ flat_self ;;
  flat_ret (r1, r2).

(** A proxy is taken, the host switches to [j], and the proxy is used. *)
Definition flat_read_after_switch (a : Axis) (j : u32) : Flat f32 :=
  p <~ flat_self ;;
  _ <~ flat_setCurrentEntity j ;;
  EntityProxy_get a p.

Definition flat_mover_run (dt : f32) : Flat unit :=
  _ <~ flat_mover_init ;;
  flat_mover_update dt.

End FlatBridge.

(** The flattened and the nested bridge see the same world: the same
    current entity, host state and call trace. *)
Definition agree {H : Type} (fs : FlatState H) (s : State H) : Prop :=
  flat_currentEntityId fs = currentEntityId s /\
  flat_host fs = host s /\
  flat_trace fs = trace s.

Section Proofs.

Context {H : Type}.
Variable table : HostTable H.

Lemma new_Entity_eq (id : u32) (s : State H) :
  new_Entity id s =
  Some ((4 + length (heap s))%nat,
        mkState (currentEntityId s) (_self s)
                (heap s ++ entity_objs (length (heap s)) id)
                (host s) (trace s)).
Proof.
  unfold new_Entity, new_Transform, new_Vec3, alloc, bind. simpl.
  rewrite !length_app. simpl.
  rewrite <- !app_assoc. simpl.
  rewrite !Nat.add_1_r. reflexivity.
Qed.

Lemma self_is_stale_eq (s : State H) :
  self_is_stale s =
  match _self s with
  | None => Some (true, s)
  | Some r =>
      match heap s !! r with
      | Some (OEntity e) => Some (negb (Entity_id e =? currentEntityId s), s)
      | _ => None
      end
  end.
Proof.
  unfold self_is_stale, Entity_get_id, load_Entity, load,
    read_self, read_currentEntityId, bind, ret, trap.
  destruct (_self s) as [r|]; [|reflexivity].
  destruct (heap s !! r) as [[v|t|e]|]; reflexivity.
Qed.

Lemma self_eq (s : State H) :
  self s =
  match _self s with
  | None => Some ((4 + length (heap s))%nat, rebuilt s)
  | Some r =>
      match heap s !! r with
      | Some (OEntity e) =>
          if Entity_id e =? currentEntityId s
          then Some (r, s)
          else Some ((4 + length (heap s))%nat, rebuilt s)
      | _ => None
      end
  end.
Proof.
  unfold self, bind. rewrite self_is_stale_eq.
  assert (Hre : (cur <- read_currentEntityId ;;
                 e <- new_Entity cur ;; write_self (Some e)) s
                = Some (tt, rebuilt s)).
  { unfold bind, read_currentEntityId. rewrite new_Entity_eq. reflexivity. }
  unfold bind in Hre.
  destruct (_self s) as [r|] eqn:Hc.
  - destruct (heap s !! r) as [[v|t|e]|]; try reflexivity.
    destruct (Entity_id e =? currentEntityId s); cbn [negb].
    + unfold ret, read_self. rewrite Hc. reflexivity.
    + rewrite Hre. reflexivity.
  - rewrite Hre. reflexivity.
Qed.

(** *** Lookups in a grown heap *)

Lemma lookup_grow (hp l : list Obj) (r : ref) (o : Obj) :
  hp !! r = Some o -> (hp ++ l) !! r = Some o.
Proof. apply lookup_app_l_Some. Qed.

Lemma lookup_past (hp l : list Obj) (k : nat) :
  (hp ++ l) !! (k + length hp)%nat = l !! k.
Proof.
  rewrite lookup_app_r by lia. f_equal. lia.
Qed.

Lemma lookup_fresh (hp : list Obj) (k : nat) :
  hp !! (k + length hp)%nat = None.
Proof. apply lookup_ge_None. lia. Qed.

Lemma lookup_entity_objs (hp : list Obj) (id : u32) (k : nat) :
  (hp ++ entity_objs (length hp) id) !! (k + length hp)%nat
  = entity_objs (length hp) id !! k.
Proof. apply lookup_past. Qed.

Lemma Vec3_id_at_grow (hp l : list Obj) (r : ref) (i : u32) :
  Vec3_id_at hp r = Some i -> Vec3_id_at (hp ++ l) r = Some i.
Proof.
  unfold Vec3_id_at. destruct (hp !! r) as [o|] eqn:E; [|discriminate].
  rewrite (lookup_grow _ l _ _ E). trivial.
Qed.

Lemma same_entityId_grow (hp l : list Obj) (e : Entity) :
  same_entityId hp e = true -> same_entityId (hp ++ l) e = true.
Proof.
  unfold same_entityId.
  destruct (hp !! transform e) as [o|] eqn:E; [|discriminate].
  rewrite (lookup_grow _ l _ _ E).
  destruct o as [v|t|e']; try discriminate.
  rewrite !andb_true_iff, !bool_decide_eq_true.
  intros [[Hp Hr] Hs]. repeat split; eauto using Vec3_id_at_grow.
Qed.

Lemma wired_as_grow (hp l : list Obj) (c : Category) (r : ref) :
  wired_as hp c r = true -> wired_as (hp ++ l) c r = true.
Proof.
  unfold wired_as. destruct (hp !! r) as [o|] eqn:E; [|discriminate].
  rewrite (lookup_grow _ l _ _ E). trivial.
Qed.

Lemma wired_grow (hp l : list Obj) (e : Entity) :
  wired hp e = true -> wired (hp ++ l) e = true.
Proof.
  unfold wired.
  destruct (hp !! transform e) as [o|] eqn:E; [|discriminate].
  rewrite (lookup_grow _ l _ _ E).
  destruct o as [v|t|e']; try discriminate.
  rewrite !andb_true_iff.
  intros [[Hp Hr] Hs]. repeat split; eauto using wired_as_grow.
Qed.

Lemma obj_ok_grow (hp l : list Obj) (o : Obj) :
  obj_ok hp o = true -> obj_ok (hp ++ l) o = true.
Proof.
  destruct o as [v|t|e]; simpl; trivial.
  rewrite !andb_true_iff. intros [Hs Hw].
  split; eauto using same_entityId_grow, wired_grow.
Qed.

(** *** The constructor establishes the invariant *)

Lemma new_entity_ok (hp : list Obj) (id : u32) :
  obj_ok (hp ++ entity_objs (length hp) id)
         (OEntity {| Entity_id := id; transform := S (S (S (length hp))) |})
  = true.
Proof.
  pose proof (lookup_past hp (entity_objs (length hp) id) 0) as L0.
  pose proof (lookup_past hp (entity_objs (length hp) id) 1) as L1.
  pose proof (lookup_past hp (entity_objs (length hp) id) 2) as L2.
  pose proof (lookup_past hp (entity_objs (length hp) id) 3) as L3.
  cbn [Nat.add entity_objs lookup list_lookup] in L0, L1, L2, L3.
  unfold obj_ok, same_entityId, wired, wired_as, Vec3_id_at.
  cbn [transform Entity_id Nat.add].
  rewrite L3. cbn [position rotation scale].
  rewrite L0, L1, L2. cbn [Vec3_id].
  rewrite !bool_decide_eq_true_2 by reflexivity. reflexivity.
Qed.

Lemma heap_ok_rebuilt (hp : list Obj) (id : u32) :
  heap_ok hp = true -> heap_ok (hp ++ entity_objs (length hp) id) = true.
Proof.
  unfold heap_ok. intros Hok.
  rewrite forallb_app. apply andb_true_iff. split.
  - rewrite forallb_forall in *. intros o Ho.
    apply obj_ok_grow. auto.
  - apply forallb_forall. intros o Ho.
    destruct Ho as [<-|[<-|[<-|[<-|[<-|[]]]]]]; try reflexivity.
    apply new_entity_ok.
Qed.

Lemma heap_ok_lookup (hp : list Obj) (r : ref) (e : Entity) :
  heap_ok hp = true -> hp !! r = Some (OEntity e) ->
  same_entityId hp e = true /\ wired hp e = true.
Proof.
  unfold heap_ok. rewrite forallb_forall. intros Hok Hr.
  specialize (Hok (OEntity e)). cbn [obj_ok] in Hok.
  apply andb_true_iff, Hok.
  apply list_elem_of_In. eapply list_elem_of_lookup_2. eassumption.
Qed.

(** *** Well-formed states and [self()] *)

Lemma wf_parts (s : State H) :
  wf s = true <-> heap_ok (heap s) = true /\ cache_ok s = true.
Proof. unfold wf. apply andb_true_iff. Qed.

Lemma lookup_rebuilt_self (s : State H) :
  heap (rebuilt s) !! (4 + length (heap s))%nat
  = Some (OEntity {| Entity_id := currentEntityId s;
                     transform := S (S (S (length (heap s)))) |}).
Proof.
  cbn [rebuilt heap]. rewrite lookup_past. reflexivity.
Qed.

Lemma cached_id_rebuilt (s : State H) :
  cached_id (rebuilt s) = Some (currentEntityId s).
Proof.
  unfold cached_id.
  change (_self (rebuilt s)) with (Some (4 + length (heap s))%nat).
    cbv beta iota.
  rewrite lookup_rebuilt_self. reflexivity.
Qed.

Lemma cache_hit_rebuilt (s : State H) : cache_hit (rebuilt s) = true.
Proof.
  unfold cache_hit. rewrite cached_id_rebuilt.
  cbn [rebuilt currentEntityId]. apply Z.eqb_refl.
Qed.

Lemma wf_rebuilt (s : State H) :
  heap_ok (heap s) = true -> wf (rebuilt s) = true.
Proof.
  intros Hok. apply wf_parts. split.
  - cbn [rebuilt heap]. apply heap_ok_rebuilt, Hok.
  - unfold cache_ok.
    change (_self (rebuilt s)) with (Some (4 + length (heap s))%nat).
    cbv beta iota.
    rewrite lookup_rebuilt_self. reflexivity.
Qed.

Lemma wf_settle (s : State H) : wf s = true -> wf (settle s) = true.
Proof.
  intros Hwf. unfold settle. destruct (cache_hit s); [assumption|].
  apply wf_rebuilt. apply wf_parts in Hwf. tauto.
Qed.

Lemma cache_hit_settle (s : State H) : cache_hit (settle s) = true.
Proof.
  unfold settle. destruct (cache_hit s) eqn:E; [assumption|].
  apply cache_hit_rebuilt.
Qed.

Lemma settle_hit (s : State H) : cache_hit s = true -> settle s = s.
Proof. unfold settle. intros ->. reflexivity. Qed.

Lemma settle_idem (s : State H) : settle (settle s) = settle s.
Proof. apply settle_hit, cache_hit_settle. Qed.

Lemma currentEntityId_settle (s : State H) :
  currentEntityId (settle s) = currentEntityId s.
Proof. unfold settle. destruct (cache_hit s); reflexivity. Qed.

Lemma host_settle (s : State H) : host (settle s) = host s.
Proof. unfold settle. destruct (cache_hit s); reflexivity. Qed.

Lemma trace_settle (s : State H) : trace (settle s) = trace s.
Proof. unfold settle. destruct (cache_hit s); reflexivity. Qed.

(** On a well-formed state [self()] returns, and leaves the state settled
    with the returned handle as the cache. *)
Lemma self_settle (s : State H) :
  wf s = true ->
  exists r, self s = Some (r, settle s) /\ _self (settle s) = Some r.
Proof.
  intros Hwf. apply wf_parts in Hwf as [_ Hc].
  rewrite self_eq. unfold settle, cache_hit, cached_id.
  unfold cache_ok in Hc.
  destruct (_self s) as [r|] eqn:Hs.
  - destruct (heap s !! r) as [[v|t|e]|]; try discriminate.
    destruct (Entity_id e =? currentEntityId s); eauto.
  - eauto.
Qed.

(** A second [self()] right after the first is a cache hit. *)
Lemma self_again (s : State H) (r : ref) (s' : State H) :
  self s = Some (r, s') -> self s' = Some (r, s').
Proof.
  rewrite self_eq. intros Hs.
  assert (Hre : self (rebuilt s)
                = Some ((4 + length (heap s))%nat, rebuilt s)).
  { rewrite self_eq.
    change (_self (rebuilt s)) with (Some (4 + length (heap s))%nat).
    cbv beta iota.
    rewrite lookup_rebuilt_self.
    change (currentEntityId (rebuilt s)) with (currentEntityId s).
    cbn [Entity_id]. rewrite Z.eqb_refl. reflexivity. }
  destruct (_self s) as [r0|] eqn:Hc.
  - destruct (heap s !! r0) as [[v|t|e]|] eqn:Hl; try discriminate.
    destruct (Entity_id e =? currentEntityId s) eqn:Hid.
    + injection Hs as <- <-. rewrite self_eq, Hc, Hl, Hid. reflexivity.
    + injection Hs as <- <-. exact Hre.
  - injection Hs as <- <-. exact Hre.
Qed.

(** *** Host calls *)

Lemma call_getter_eq (g : HostGetter) (id : u32) (s : State H) :
  call_getter table g id s
  = Some (fst (host_get table g id (host s)), got table g id s).
Proof.
  unfold call_getter, got. destruct (host_get table g id (host s)).
  reflexivity.
Qed.

Lemma call_setter_eq (st : HostSetter) (id : u32) (val : f32) (s : State H) :
  call_setter table st id val s = Some (tt, put table st id val s).
Proof. reflexivity. Qed.

Lemma wf_got g id (s : State H) : wf (got table g id s) = wf s.
Proof. reflexivity. Qed.

Lemma wf_put st id v (s : State H) : wf (put table st id v s) = wf s.
Proof. reflexivity. Qed.

Lemma cache_hit_got g id (s : State H) :
  cache_hit (got table g id s) = cache_hit s.
Proof. reflexivity. Qed.

Lemma cache_hit_put st id v (s : State H) :
  cache_hit (put table st id v s) = cache_hit s.
Proof. reflexivity. Qed.

Lemma settle_got g id (s : State H) :
  cache_hit s = true -> settle (got table g id s) = got table g id s.
Proof. intros Hh. apply settle_hit. rewrite cache_hit_got. exact Hh. Qed.

Lemma settle_put st id v (s : State H) :
  cache_hit s = true -> settle (put table st id v s) = put table st id v s.
Proof. intros Hh. apply settle_hit. rewrite cache_hit_put. exact Hh. Qed.

(** *** Field access through a [Vec3] *)

Lemma Vec3_get_eq (a : Axis) (this : ref) (vec : Vec3) (s : State H) :
  heap s !! this = Some (OVec3 vec) ->
  Vec3_get table a this s
  = call_getter table (getter_at a vec) (Vec3_id vec) s.
Proof.
  intros Hl.
  destruct a; unfold Vec3_get, Vec3_get_x, Vec3_get_y, Vec3_get_z,
    load_Vec3, load, bind, ret; rewrite Hl; reflexivity.
Qed.

Lemma Vec3_set_eq (a : Axis) (this : ref) (vec : Vec3) (val : f32)
    (s : State H) :
  heap s !! this = Some (OVec3 vec) ->
  Vec3_set table a this val s
  = call_setter table (setter_at a vec) (Vec3_id vec) val s.
Proof.
  intros Hl.
  destruct a; unfold Vec3_set, Vec3_set_x, Vec3_set_y, Vec3_set_z,
    load_Vec3, load, bind, ret; rewrite Hl; reflexivity.
Qed.

(** *** What the invariant says about one handle *)

Lemma wired_as_spec (hp : list Obj) (c : Category) (r : ref) (i : u32) :
  Vec3_id_at hp r = Some i -> wired_as hp c r = true ->
  exists vec, hp !! r = Some (OVec3 vec) /\ Vec3_id vec = i /\
    forall a, getter_at a vec = getter_of c a /\
              setter_at a vec = setter_of c a.
Proof.
  unfold Vec3_id_at, wired_as.
  destruct (hp !! r) as [[vec|t|e]|]; try discriminate.
  intros [= Hid]. rewrite !andb_true_iff, !bool_decide_eq_true.
  intros [[[[[Hgx Hsx] Hgy] Hsy] Hgz] Hsz].
  exists vec. repeat split; trivial; destruct a; assumption.
Qed.

Lemma bound_vec3 (hp : list Obj) (e : Entity) :
  same_entityId hp e = true -> wired hp e = true ->
  exists t, hp !! transform e = Some (OTransform t) /\
    forall c, exists vec,
      hp !! Transform_proj c t = Some (OVec3 vec) /\
      Vec3_id vec = Entity_id e /\
      forall a, getter_at a vec = getter_of c a /\
                setter_at a vec = setter_of c a.
Proof.
  unfold same_entityId, wired.
  destruct (hp !! transform e) as [[vec|t|e']|]; try discriminate.
  rewrite !andb_true_iff, !bool_decide_eq_true.
  intros [[Ip Ir] Is] [[Wp Wr] Ws].
  exists t. split; [reflexivity|].
  intros c. destruct c; cbn [Transform_proj]; eauto using wired_as_spec.
Qed.

(** [self().transform.<c>] on a well-formed state: it returns a [Vec3]
    bound to the current entity and wired to the accessors of [c], and
    leaves the state settled. *)
Lemma self_transform_settle (c : Category) (s : State H) :
  wf s = true ->
  exists v vec,
    self_transform c s = Some (v, settle s) /\
    heap (settle s) !! v = Some (OVec3 vec) /\
    Vec3_id vec = currentEntityId s /\
    forall a, getter_at a vec = getter_of c a /\
              setter_at a vec = setter_of c a.
Proof.
  intros Hwf.
  destruct (self_settle s Hwf) as (r & Hself & Hc).
  pose proof (wf_settle s Hwf) as Hwf'.
  pose proof (cache_hit_settle s) as Hhit.
  apply wf_parts in Hwf' as [Hok _].
  unfold cache_hit, cached_id in Hhit. rewrite Hc in Hhit.
  destruct (heap (settle s) !! r) as [[v0|t0|e]|] eqn:Hr; try discriminate.
  apply Z.eqb_eq in Hhit. rewrite currentEntityId_settle in Hhit.
  destruct (heap_ok_lookup _ _ _ Hok Hr) as [Hs Hw].
  destruct (bound_vec3 _ _ Hs Hw) as (t & Ht & Hv).
  destruct (Hv c) as (vec & Hvec & Hid & Hacc).
  exists (Transform_proj c t), vec.
  split; [|split; [exact Hvec|split; [congruence|exact Hacc]]].
  unfold self_transform, bind. rewrite Hself.
  unfold Entity_transform, load_Entity, load, bind, ret. rewrite Hr.
  destruct c; unfold Transform_field, Transform_position,
    Transform_rotation, Transform_scale, load_Transform, load, bind, ret;
    rewrite Ht; reflexivity.
Qed.

Lemma read_channel_eq (c : Category) (a : Axis) (s : State H) :
  wf s = true ->
  read_channel table c a s
  = call_getter table (getter_of c a) (currentEntityId s) (settle s).
Proof.
  intros Hwf.
  destruct (self_transform_settle c s Hwf) as (v & vec & Hst & Hv & Hid & Hacc).
  unfold read_channel, bind. rewrite Hst.
  rewrite (Vec3_get_eq a v vec _ Hv), Hid.
  destruct (Hacc a) as [-> _]. reflexivity.
Qed.

Lemma write_channel_eq (c : Category) (a : Axis) (val : f32) (s : State H) :
  wf s = true ->
  write_channel table c a val s
  = call_setter table (setter_of c a) (currentEntityId s) val (settle s).
Proof.
  intros Hwf.
  destruct (self_transform_settle c s Hwf) as (v & vec & Hst & Hv & Hid & Hacc).
  unfold write_channel, bind. rewrite Hst.
  rewrite (Vec3_set_eq a v vec val _ Hv), Hid.
  destruct (Hacc a) as [_ ->]. reflexivity.
Qed.

(** *** Stepping through a script *)

Lemma read_channel_bind {B : Type} (c : Category) (a : Axis)
    (k : f32 -> M H B) (s : State H) :
  wf s = true ->
  bind (read_channel table c a) k s
  = k (fst (host_get table (getter_of c a) (currentEntityId s)
              (host (settle s))))
      (got table (getter_of c a) (currentEntityId s) (settle s)).
Proof.
  intros Hwf. unfold bind.
  rewrite (read_channel_eq c a s Hwf), call_getter_eq. reflexivity.
Qed.

Lemma write_channel_bind {B : Type} (c : Category) (a : Axis) (val : f32)
    (k : unit -> M H B) (s : State H) :
  wf s = true ->
  bind (write_channel table c a val) k s
  = k tt (put table (setter_of c a) (currentEntityId s) val (settle s)).
Proof.
  intros Hwf. unfold bind.
  rewrite (write_channel_eq c a val s Hwf), call_setter_eq. reflexivity.
Qed.

Lemma add_assign_position_eq (a : Axis) (inc : f32) (s : State H) :
  wf s = true ->
  add_assign_position table a inc s
  = Some (tt, add_assign_state table a inc (settle s)).
Proof.
  intros Hwf.
  destruct (self_transform_settle Position s Hwf)
    as (v & vec & Hst & Hv & Hid & Hacc).
  unfold add_assign_position. unfold bind at 1. rewrite Hst.
  rewrite read_channel_bind by (apply wf_settle, Hwf).
  rewrite settle_idem, currentEntityId_settle.
  erewrite Vec3_set_eq by exact Hv.
  rewrite Hid, call_setter_eq.
  destruct (Hacc a) as [_ ->].
  unfold add_assign_state. rewrite currentEntityId_settle. reflexivity.
Qed.

(** Evaluating the receiver once or twice makes no difference. *)
Lemma add_assign_position_once_eq (a : Axis) (inc : f32) (s : State H) :
  wf s = true ->
  add_assign_position_once table a inc s = add_assign_position table a inc s.
Proof.
  intros Hwf. rewrite (add_assign_position_eq a inc s Hwf).
  destruct (self_transform_settle Position s Hwf)
    as (v & vec & Hst & Hv & Hid & Hacc).
  unfold add_assign_position_once. unfold bind at 1. rewrite Hst.
  unfold bind. rewrite (Vec3_get_eq a v vec _ Hv), call_getter_eq.
  erewrite Vec3_set_eq by exact Hv.
  rewrite Hid, call_setter_eq.
  destruct (Hacc a) as [-> ->].
  unfold add_assign_state. rewrite currentEntityId_settle. reflexivity.
Qed.

Lemma add_assign_position_bind {B : Type} (a : Axis) (inc : f32)
    (k : unit -> M H B) (s : State H) :
  wf s = true ->
  bind (add_assign_position table a inc) k s
  = k tt (add_assign_state table a inc (settle s)).
Proof.
  intros Hwf. unfold bind.
  rewrite (add_assign_position_eq a inc s Hwf). reflexivity.
Qed.

Lemma mover_init_eq (s : State H) :
  wf s = true -> mover_init table s = Some (tt, mover_init_state table s).
Proof.
  intros Hwf.
  pose proof (wf_settle s Hwf) as Hwf'.
  pose proof (cache_hit_settle s) as Hhit.
  pose proof (currentEntityId_settle s) as Hcur.
  unfold mover_init, mover_init_state, console_log.
  unfold bind at 1. unfold ret at 1.
  rewrite write_channel_bind by exact Hwf.
  rewrite write_channel_bind by exact Hwf'.
  rewrite settle_put by exact Hhit.
  rewrite read_channel_bind by exact Hwf'.
  rewrite settle_put by exact Hhit.
  rewrite read_channel_bind by exact Hwf'.
  rewrite settle_got by exact Hhit.
  cbn [currentEntityId put got]. rewrite Hcur. reflexivity.
Qed.

Lemma mover_update_eq (dt : f32) (s : State H) :
  wf s = true ->
  mover_update table dt s = Some (tt, mover_update_state table dt s).
Proof.
  intros Hwf.
  pose proof (wf_settle s Hwf) as Hwf'.
  pose proof (cache_hit_settle s) as Hhit.
  pose proof (currentEntityId_settle s) as Hcur.
  unfold mover_update, mover_update_state, console_log.
  rewrite read_channel_bind by exact Hwf.
  rewrite read_channel_bind by exact Hwf'.
  rewrite settle_got by exact Hhit.
  rewrite add_assign_position_bind by exact Hwf'.
  rewrite settle_got by exact Hhit.
  rewrite add_assign_position_bind by exact Hwf'.
  rewrite (settle_hit (add_assign_state _ _ _ _)) by exact Hhit.
  rewrite read_channel_bind by exact Hwf'.
  rewrite (settle_hit (add_assign_state _ _ _ _)) by exact Hhit.
  rewrite read_channel_bind by exact Hwf'.
  rewrite settle_got by exact Hhit.
  cbn [currentEntityId put got add_assign_state]. rewrite Hcur.
  reflexivity.
Qed.

(** *** Effect of one operation *)

Lemma same_guest_refl (s : State H) : same_guest s s.
Proof. repeat split. Qed.

Lemma same_guest_wf (s s' : State H) : same_guest s s' -> wf s' = wf s.
Proof.
  intros (Hc & Hs & Hh). unfold wf, cache_ok. rewrite Hs, Hh. reflexivity.
Qed.

Lemma same_guest_cache_hit (s s' : State H) :
  same_guest s s' -> cache_hit s' = cache_hit s.
Proof.
  intros (Hc & Hs & Hh). unfold cache_hit, cached_id.
  rewrite Hc, Hs, Hh. reflexivity.
Qed.

Lemma Vec3_get_inv (a : Axis) (this : ref) (x : f32) (s s' : State H) :
  Vec3_get table a this s = Some (x, s') ->
  exists vec, heap s !! this = Some (OVec3 vec) /\
    x = fst (host_get table (getter_at a vec) (Vec3_id vec) (host s)) /\
    s' = got table (getter_at a vec) (Vec3_id vec) s.
Proof.
  destruct (heap s !! this) as [[vec|t|e]|] eqn:Hl.
  - rewrite (Vec3_get_eq a this vec s Hl), call_getter_eq.
    intros [= <- <-]. eauto.
  - destruct a; unfold Vec3_get, Vec3_get_x, Vec3_get_y, Vec3_get_z,
      load_Vec3, load, bind, trap; rewrite Hl; discriminate.
  - destruct a; unfold Vec3_get, Vec3_get_x, Vec3_get_y, Vec3_get_z,
      load_Vec3, load, bind, trap; rewrite Hl; discriminate.
  - destruct a; unfold Vec3_get, Vec3_get_x, Vec3_get_y, Vec3_get_z,
      load_Vec3, load, bind, trap; rewrite Hl; discriminate.
Qed.

Lemma Vec3_set_inv (a : Axis) (this : ref) (val : f32) (s s' : State H) :
  Vec3_set table a this val s = Some (tt, s') ->
  exists vec, heap s !! this = Some (OVec3 vec) /\
    s' = put table (setter_at a vec) (Vec3_id vec) val s.
Proof.
  destruct (heap s !! this) as [[vec|t|e]|] eqn:Hl.
  - rewrite (Vec3_set_eq a this vec val s Hl), call_setter_eq.
    intros [= <-]. eauto.
  - destruct a; unfold Vec3_set, Vec3_set_x, Vec3_set_y, Vec3_set_z,
      load_Vec3, load, bind, trap; rewrite Hl; discriminate.
  - destruct a; unfold Vec3_set, Vec3_set_x, Vec3_set_y, Vec3_set_z,
      load_Vec3, load, bind, trap; rewrite Hl; discriminate.
  - destruct a; unfold Vec3_set, Vec3_set_x, Vec3_set_y, Vec3_set_z,
      load_Vec3, load, bind, trap; rewrite Hl; discriminate.
Qed.

(** Every operation other than [setCurrentEntity] leaves the guest part as
    [self()] would leave it, or does not touch it at all. *)
Lemma exec_cases (o : Op) (s s' : State H) :
  wf s = true -> exec table o s = Some (tt, s') ->
  match o with
  | OpSetCurrentEntity id =>
      s' = mkState id (_self s) (heap s) (host s) (trace s)
  | _ => same_guest (settle s) s' \/ same_guest s s'
  end.
Proof.
  intros Hwf. destruct o as [id| |a r|a r v| |dt| |dt|f]; cbn [exec].
  - intros [= <-]. reflexivity.
  - unfold bind. destruct (self_settle s Hwf) as (r & -> & _).
    intros [= <-]. left. apply same_guest_refl.
  - unfold bind. destruct (Vec3_get table a r s) as [[x s1]|] eqn:E;
      [|discriminate].
    intros [= <-]. apply Vec3_get_inv in E as (vec & _ & _ & ->).
    right. repeat split.
  - intros E. apply Vec3_set_inv in E as (vec & _ & ->).
    right. repeat split.
  - intros [= <-]. right. apply same_guest_refl.
  - intros [= <-]. right. apply same_guest_refl.
  - rewrite (mover_init_eq s Hwf). intros [= <-]. left. repeat split.
  - rewrite (mover_update_eq dt s Hwf). intros [= <-]. left. repeat split.
  - intros [= <-]. right. repeat split.
Qed.

Lemma exec_wf (o : Op) (s s' : State H) :
  wf s = true -> exec table o s = Some (tt, s') -> wf s' = true.
Proof.
  intros Hwf E. pose proof (exec_cases o s s' Hwf E) as C.
  destruct o; try (destruct C as [C|C]; rewrite (same_guest_wf _ _ C);
                   auto using wf_settle).
  subst s'. exact Hwf.
Qed.

Lemma reachable_wf (s : State H) : Reachable table s -> wf s = true.
Proof.
  induction 1 as [h0|s s' o _ IH E]; [reflexivity|].
  exact (exec_wf o s s' IH E).
Qed.

(** Objects are never overwritten: the heap only grows. *)
Lemma heap_settle (s : State H) :
  exists l, heap (settle s) = heap s ++ l.
Proof.
  unfold settle. destruct (cache_hit s).
  - exists []. symmetry. apply app_nil_r.
  - eexists. reflexivity.
Qed.

Lemma exec_heap (o : Op) (s s' : State H) :
  wf s = true -> exec table o s = Some (tt, s') ->
  exists l, heap s' = heap s ++ l.
Proof.
  intros Hwf E. pose proof (exec_cases o s s' Hwf E) as C.
  destruct o;
    try (destruct C as [(_ & _ & ->)|(_ & _ & ->)];
         [apply heap_settle | exists []; symmetry; apply app_nil_r]).
  subst s'. exists []. symmetry. apply app_nil_r.
Qed.

(** In a settled state, operations other than [setCurrentEntity] keep the
    guest part. *)
Lemma exec_hit (o : Op) (s s' : State H) :
  wf s = true -> cache_hit s = true -> is_setCurrentEntity o = false ->
  exec table o s = Some (tt, s') -> same_guest s s'.
Proof.
  intros Hwf Hhit Hno E. pose proof (exec_cases o s s' Hwf E) as C.
  rewrite (settle_hit s Hhit) in C.
  destruct o; try discriminate; tauto.
Qed.

Lemma run_hit (ops : list Op) (s s' : State H) :
  wf s = true -> cache_hit s = true ->
  forallb (fun o => negb (is_setCurrentEntity o)) ops = true ->
  run table ops s = Some (tt, s') -> same_guest s s'.
Proof.
  revert s. induction ops as [|o ops IH]; intros s Hwf Hhit Hno.
  - intros [= <-]. apply same_guest_refl.
  - cbn [forallb] in Hno. apply andb_true_iff in Hno as [Ho Hno].
    apply negb_true_iff in Ho.
    cbn [run]. unfold bind.
    destruct (exec table o s) as [[[] s1]|] eqn:E; [|discriminate].
    intros Hrun.
    pose proof (exec_hit o s s1 Hwf Hhit Ho E) as G1.
    assert (G2 : same_guest s1 s').
    { apply IH; trivial.
      - rewrite (same_guest_wf _ _ G1). exact Hwf.
      - rewrite (same_guest_cache_hit _ _ G1). exact Hhit. }
    destruct G1 as (A1 & B1 & C1), G2 as (A2 & B2 & C2).
    repeat split; congruence.
Qed.

(** *** The two outcomes of [self()] *)

Lemma rebuilt_rebuilds (s : State H) :
  self s = Some ((4 + length (heap s))%nat, rebuilt s) -> rebuilds s.
Proof.
  intros Hs.
  pose proof (new_entity_ok (heap s) (currentEntityId s)) as Hok.
  cbn [obj_ok] in Hok. apply andb_true_iff in Hok as [Hb Hw].
  exists (4 + length (heap s))%nat, (rebuilt s),
    {| Entity_id := currentEntityId s;
       transform := S (S (S (length (heap s)))) |}.
  split; [exact Hs|].
  split; [apply lookup_fresh|].
  split; [apply lookup_rebuilt_self|].
  split; [reflexivity|].
  split; [exact Hb|].
  split; [exact Hw|].
  split; [reflexivity|].
  split; [reflexivity|].
  split; [reflexivity|].
  split; [reflexivity|].
  intros r0 o Hl. cbn [rebuilt heap]. apply lookup_grow, Hl.
Qed.

Lemma self_miss (s : State H) : _self s = None -> rebuilds s.
Proof.
  intros Hc. apply rebuilt_rebuilds. rewrite self_eq, Hc. reflexivity.
Qed.

Lemma self_stale (s : State H) (r : ref) (e : Entity) :
  _self s = Some r -> heap s !! r = Some (OEntity e) ->
  Entity_id e <> currentEntityId s -> rebuilds s.
Proof.
  intros Hc Hl Hne. apply rebuilt_rebuilds. rewrite self_eq, Hc, Hl.
  apply Z.eqb_neq in Hne. rewrite Hne. reflexivity.
Qed.

Lemma self_cached (s : State H) (r : ref) (e : Entity) :
  _self s = Some r -> heap s !! r = Some (OEntity e) ->
  Entity_id e = currentEntityId s -> self s = Some (r, s).
Proof.
  intros Hc Hl He. rewrite self_eq, Hc, Hl.
  apply Z.eqb_eq in He. rewrite He. reflexivity.
Qed.

Lemma cache_hit_inv (s : State H) :
  cache_hit s = true ->
  exists r e, _self s = Some r /\ heap s !! r = Some (OEntity e) /\
              Entity_id e = currentEntityId s.
Proof.
  unfold cache_hit, cached_id.
  destruct (_self s) as [r|] eqn:Hc; [|discriminate].
  destruct (heap s !! r) as [[v|t|e]|] eqn:Hl; try discriminate.
  intros Hid. apply Z.eqb_eq in Hid. exists r, e. auto.
Qed.

Lemma self_hit (s : State H) :
  cache_hit s = true -> exists r, _self s = Some r /\ self s = Some (r, s).
Proof.
  intros Hh. destruct (cache_hit_inv s Hh) as (r & e & Hc & Hl & He).
  exists r. split; [exact Hc|]. exact (self_cached s r e Hc Hl He).
Qed.

Lemma cache_ok_inv (s : State H) :
  cache_ok s = true ->
  _self s = None \/
  exists r e, _self s = Some r /\ heap s !! r = Some (OEntity e).
Proof.
  unfold cache_ok. destruct (_self s) as [r|] eqn:Hc; [|auto].
  destruct (heap s !! r) as [[v|t|e]|] eqn:Hl; try discriminate.
  intros _. right. exists r, e. auto.
Qed.

(* ===================================================================== *)
(** ** The self-accessor *)
(* ===================================================================== *)

(** C1. In every reachable state the cache is either absent or refers to
    an [Entity], and [self()] does the following: with no cached handle,
    or with a cached handle whose id differs from [currentEntityId], it
    builds a new [Entity] for [currentEntityId] and stores it as the
    cache; with a cached handle whose id equals [currentEntityId] it
    returns that handle and leaves the state as it is. *)
Theorem self_algorithm (s : State H) :
  Reachable table s ->
  (_self s = None \/
   exists r e, _self s = Some r /\ heap s !! r = Some (OEntity e)) /\
  (_self s = None -> rebuilds s) /\
  (forall r e,
      _self s = Some r -> heap s !! r = Some (OEntity e) ->
      Entity_id e <> currentEntityId s -> rebuilds s) /\
  (forall r e,
      _self s = Some r -> heap s !! r = Some (OEntity e) ->
      Entity_id e = currentEntityId s -> self s = Some (r, s)).
Proof.
  intros Hr. apply reachable_wf, wf_parts in Hr as [_ Hc].
  split; [exact (cache_ok_inv s Hc)|].
  split; [exact (self_miss s)|].
  split; [exact (self_stale s)|exact (self_cached s)].
Qed.

Lemma self_calls_hit (n : nat) (r : ref) (s : State H) :
  self s = Some (r, s) -> self_calls n s = Some (replicate n r, s).
Proof.
  intros Hs. induction n as [|n IH]; [reflexivity|].
  cbn [self_calls replicate]. unfold bind. rewrite Hs.
  unfold bind in IH. rewrite IH. reflexivity.
Qed.

(** C2. A call of [self()] in a reachable state returns a handle [r], and
    from then on: any number of further consecutive [self()] calls all
    return [r] and leave the state as it is; and after any sequence of
    operations that contains no [setCurrentEntity] (further [self()]
    calls, field accesses, lifecycle callbacks, host activity) the next
    [self()] again returns [r] without changing the state. *)
Theorem self_stable_without_setCurrentEntity
    (s : State H) (n : nat) (ops : list Op) :
  Reachable table s ->
  forallb (fun o => negb (is_setCurrentEntity o)) ops = true ->
  exists r s1,
    self s = Some (r, s1) /\
    self_calls n s1 = Some (replicate n r, s1) /\
    forall s2, run table ops s1 = Some (tt, s2) -> self s2 = Some (r, s2).
Proof.
  intros Hr Hno. apply reachable_wf in Hr.
  destruct (self_settle s Hr) as (r & Hself & Hc).
  exists r, (settle s). split; [exact Hself|].
  split; [exact (self_calls_hit n r _ (self_again _ _ _ Hself))|].
  intros s2 Hrun.
  pose proof (run_hit ops (settle s) s2 (wf_settle s Hr)
                (cache_hit_settle s) Hno Hrun) as G.
  pose proof (same_guest_cache_hit _ _ G) as Hh.
  rewrite cache_hit_settle in Hh.
  destruct (self_hit s2 Hh) as (r2 & Hc2 & Hs2).
  destruct G as (_ & Gs & _). congruence.
Qed.

(** C10. When the cache holds a handle built for id [k], calling
    [setCurrentEntity(k)] and then [self()] returns that same handle; no
    object is created and the cache is kept. *)
Theorem setCurrentEntity_same_id_keeps_handle
    (s : State H) (r : ref) (e : Entity) :
  _self s = Some r -> heap s !! r = Some (OEntity e) ->
  exists s',
    (setCurrentEntity (Entity_id e) ;; self) s = Some (r, s') /\
    _self s' = Some r /\
    heap s' = heap s /\
    currentEntityId s' = Entity_id e.
Proof.
  intros Hc Hl.
  exists (mkState (Entity_id e) (_self s) (heap s) (host s) (trace s)).
  split; [|split; [exact Hc|split; reflexivity]].
  unfold bind, setCurrentEntity.
  apply (self_cached _ r e); trivial.
Qed.

Lemma wf_with_current (id : u32) (s : State H) :
  wf (with_current id s) = wf s.
Proof. reflexivity. Qed.

(** C3. For distinct ids [e1] and [e2], the calls [setCurrentEntity(e1)],
    [self()], [setCurrentEntity(e2)], [self()], [setCurrentEntity(e1)],
    [self()] all return; the first and the third handle are different
    objects, and both report [e1] as their id. *)
Theorem switch_back_rebuilds (s : State H) (e1 e2 : u32) :
  Reachable table s -> e1 <> e2 ->
  exists h1 h2 h3 s',
    switch_back e1 e2 s = Some ((h1, h2, h3), s') /\
    h1 <> h3 /\
    Entity_get_id h1 s' = Some (e1, s') /\
    Entity_get_id h3 s' = Some (e1, s').
Proof.
  intros Hr Hne. apply reachable_wf in Hr.
  (* first switch and first handle *)
  pose (sA := with_current e1 s).
  assert (HwA : wf sA = true) by exact Hr.
  destruct (self_settle sA HwA) as (h1 & Hs1 & _).
  destruct (cache_hit_inv _ (cache_hit_settle sA)) as (h1' & a & Hc1 & Hl1 & Ha).
  assert (h1' = h1) as ->.
  { pose proof (self_again _ _ _ Hs1) as Hag.
    rewrite (self_cached _ _ _ Hc1 Hl1 Ha) in Hag. congruence. }
  rewrite currentEntityId_settle in Ha. cbn [sA with_current currentEntityId] in Ha.
  (* second switch: the cache is stale *)
  pose (sB := with_current e2 (settle sA)).
  assert (HB : rebuilds sB).
  { apply (self_stale sB h1 a); trivial. cbn. congruence. }
  destruct HB as (h2 & s2 & b & Hs2 & _ & Hl2 & Hb & _ & _ & Hc2 & _ & _ & _ & Hk2).
  cbn [sB with_current currentEntityId] in Hb.
  (* third switch: stale again *)
  pose (sC := with_current e1 s2).
  assert (HC : rebuilds sC).
  { apply (self_stale sC h2 b); trivial. cbn. congruence. }
  destruct HC as (h3 & s3 & c & Hs3 & Hf3 & Hl3 & Hcid & _ & _ & _ & _ & _ & _ & Hk3).
  cbn [sC with_current currentEntityId] in Hcid.
  assert (Hl1' : heap s3 !! h1 = Some (OEntity a)).
  { apply Hk3. cbn [sC with_current heap]. apply Hk2. exact Hl1. }
  exists h1, h2, h3, s3.
  split.
  { unfold switch_back, bind, setCurrentEntity.
    fold (with_current e1 s). fold sA. rewrite Hs1.
    fold (with_current e2 (settle sA)). fold sB. rewrite Hs2.
    fold (with_current e1 s2). fold sC. rewrite Hs3. reflexivity. }
  split.
  { intros ->. 
    assert (heap sC !! h3 = Some (OEntity a)) as Hx.
    { cbn [sC with_current heap]. apply Hk2. exact Hl1. }
    congruence. }
  unfold Entity_get_id, load_Entity, load, bind, ret.
  rewrite Hl1', Hl3. split; congruence.
Qed.

(** C4. Every constructed [Entity] has a [Transform] whose three [Vec3]
    carry the id of the [Entity]: the constructor establishes this in any
    state; it holds for every handle in every reachable state; and no
    operation changes an object that is already on the heap, so it holds
    again after every operation. *)
Theorem handle_bound_to_one_id (s : State H) :
  Reachable table s ->
  (forall (id : u32) (s0 : State H),
      exists r s1 e,
        new_Entity id s0 = Some (r, s1) /\
        heap s1 !! r = Some (OEntity e) /\
        Entity_id e = id /\
        same_entityId (heap s1) e = true) /\
  (forall r e,
      heap s !! r = Some (OEntity e) -> same_entityId (heap s) e = true) /\
  (forall o s',
      exec table o s = Some (tt, s') ->
      (forall r ob, heap s !! r = Some ob -> heap s' !! r = Some ob) /\
      (forall r e,
          heap s' !! r = Some (OEntity e) ->
          same_entityId (heap s') e = true)).
Proof.
  intros Hr. pose proof (reachable_wf s Hr) as Hwf.
  split; [|split].
  - intros id s0. rewrite new_Entity_eq.
    pose proof (new_entity_ok (heap s0) id) as Hok.
    cbn [obj_ok] in Hok. apply andb_true_iff in Hok as [Hb _].
    eexists _, _, _. split; [reflexivity|].
    cbn [heap]. rewrite (lookup_past _ _ 4).
    split; [reflexivity|]. split; [reflexivity|exact Hb].
  - intros r e Hl. apply wf_parts in Hwf as [Hok _].
    apply (heap_ok_lookup _ _ _ Hok Hl).
  - intros o s' E. split.
    + destruct (exec_heap o s s' Hwf E) as [l ->].
      intros r ob. apply lookup_grow.
    + pose proof (exec_wf o s s' Hwf E) as Hwf'.
      apply wf_parts in Hwf' as [Hok _].
      intros r e Hl. apply (heap_ok_lookup _ _ _ Hok Hl).
Qed.

(** C7. [setCurrentEntity(id)] returns for every [id], sets
    [currentEntityId] to [id] and leaves the cache, the heap, the host and
    the trace as they were; a cached handle for another id therefore stays
    in place until the next [self()], which replaces it. *)
Theorem setCurrentEntity_only_sets_id (id : u32) (s : State H) :
  setCurrentEntity id s
  = Some (tt, mkState id (_self s) (heap s) (host s) (trace s)) /\
  (forall r e,
      _self s = Some r -> heap s !! r = Some (OEntity e) ->
      Entity_id e <> id ->
      rebuilds (mkState id (_self s) (heap s) (host s) (trace s))).
Proof.
  split; [reflexivity|].
  intros r e Hc Hl Hne. apply (self_stale _ r e); trivial.
Qed.

(** C8. In the state of a freshly instantiated module, where
    [currentEntityId] is [0] and no handle is cached, [self()] returns a
    reference to an [Entity] with id [0] whose three [Vec3] are bound to
    [0] and wired to the host accessors. *)
Theorem self_before_any_setCurrentEntity (h0 : H) :
  currentEntityId (init_state h0) = 0 /\
  _self (init_state h0) = None /\
  exists r s' e,
    self (init_state h0) = Some (r, s') /\
    heap s' !! r = Some (OEntity e) /\
    Entity_id e = 0 /\
    same_entityId (heap s') e = true /\
    wired (heap s') e = true /\
    Entity_get_id r s' = Some (0, s').
Proof.
  split; [reflexivity|]. split; [reflexivity|].
  destruct (self_miss (init_state h0) eq_refl)
    as (r & s' & e & Hs & _ & Hl & He & Hb & Hw & _).
  exists r, s', e. repeat split; trivial.
  unfold Entity_get_id, load_Entity, load, bind, ret. rewrite Hl.
  cbn [init_state currentEntityId] in He. rewrite He. reflexivity.
Qed.

(* ===================================================================== *)
(** ** Field access *)
(* ===================================================================== *)

(** C5. For every category, axis and value [v], over a host whose
    getter/setter pair for that channel is a faithful store/load, the
    write [self().transform.<c>.<a> = v] followed by the read
    [self().transform.<c>.<a>] returns [v]. *)
Theorem channel_write_then_read
    (c : Category) (a : Axis) (v : f32) (s : State H) :
  Reachable table s -> faithful_pair table c a ->
  exists s1 s2,
    write_channel table c a v s = Some (tt, s1) /\
    read_channel table c a s1 = Some (v, s2).
Proof.
  intros Hr Hf. apply reachable_wf in Hr.
  pose proof (wf_settle s Hr) as Hwf'.
  pose proof (cache_hit_settle s) as Hhit.
  eexists _, _. split.
  - rewrite (write_channel_eq c a v s Hr), call_setter_eq. reflexivity.
  - rewrite read_channel_eq by exact Hwf'.
    rewrite settle_put by exact Hhit.
    rewrite call_getter_eq. cbn [put host currentEntityId].
    rewrite currentEntityId_settle, Hf. reflexivity.
Qed.

(** C6. A read of an axis of a [Vec3] is one call of the getter stored for
    that axis, with the id stored in the [Vec3]: the result is what the
    host returns, the host state is what the host leaves, one entry is
    added to the call trace, and the guest part of the state is unchanged.
    A write is one call of the stored setter in the same way.  Reading
    [self().transform.position.x] twice issues two calls of
    [get_entity_position_x] for the current entity, the second against the
    host state left by the first. *)
Theorem vec3_access_is_one_host_call (s : State H) :
  Reachable table s ->
  (forall a this vec,
      heap s !! this = Some (OVec3 vec) ->
      (exists s',
          Vec3_get table a this s
          = Some (fst (host_get table (getter_at a vec) (Vec3_id vec)
                         (host s)), s') /\
          host s' = snd (host_get table (getter_at a vec) (Vec3_id vec)
                           (host s)) /\
          trace s' = trace s ++ [CallGet (getter_at a vec) (Vec3_id vec)] /\
          same_guest s s') /\
      (forall val, exists s',
          Vec3_set table a this val s = Some (tt, s') /\
          host s' = host_set table (setter_at a vec) (Vec3_id vec) val
                      (host s) /\
          trace s' = trace s ++ [CallSet (setter_at a vec) (Vec3_id vec) val]
          /\
          same_guest s s')) /\
  (exists s',
      let id := currentEntityId s in
      let r1 := host_get table get_entity_position_x id (host s) in
      let r2 := host_get table get_entity_position_x id (snd r1) in
      read_position_x_twice table s = Some ((fst r1, fst r2), s') /\
      host s' = snd r2 /\
      trace s' = trace s ++ [CallGet get_entity_position_x id;
                             CallGet get_entity_position_x id]).
Proof.
  intros Hr. apply reachable_wf in Hr. split.
  - intros a this vec Hl. split.
    + eexists. rewrite (Vec3_get_eq a this vec s Hl), call_getter_eq.
      repeat split.
    + intros val. eexists.
      rewrite (Vec3_set_eq a this vec val s Hl), call_setter_eq.
      repeat split.
  - pose proof (wf_settle s Hr) as Hwf'.
    pose proof (cache_hit_settle s) as Hhit.
    exists (got table get_entity_position_x (currentEntityId s)
              (got table get_entity_position_x (currentEntityId s)
                 (settle s))).
    cbv zeta. unfold read_position_x_twice.
    rewrite read_channel_bind by exact Hr.
    rewrite read_channel_bind by exact Hwf'.
    rewrite settle_got by exact Hhit.
    cbn [got host currentEntityId trace getter_of].
    rewrite currentEntityId_settle, host_settle, trace_settle.
    split; [reflexivity|]. split; [reflexivity|].
    rewrite <- app_assoc. reflexivity.
Qed.

(* ===================================================================== *)
(** ** The sample script *)
(* ===================================================================== *)

Lemma mover_final_x_eq :
  f32_add f32_neg_2_0 (f32_mul f32_0_5 f32_1_01) = mover_final_x.
Proof. vm_compute. reflexivity. Qed.

Lemma mover_final_y_eq :
  f32_add f32_1_0 (f32_mul f32_0_5 f32_1_01) = mover_final_y.
Proof. vm_compute. reflexivity. Qed.

(** The literals of the script are the binary32 numbers nearest to their
    decimal values. *)
Lemma mover_literals :
  f32_nearest (-2) f32_neg_2_0 = true /\
  f32_nearest 1 f32_1_0 = true /\
  f32_nearest (101 # 100) f32_1_01 = true /\
  f32_nearest (1 # 2) f32_0_5 = true.
Proof. vm_compute. repeat split. Qed.

Section Faithful.

Variable peek : H -> HostGetter -> u32 -> f32.
Hypothesis faithful : FaithfulStore table peek.

Lemma peek_got g id (s : State H) g' id' :
  peek (host (got table g id s)) g' id' = peek (host s) g' id'.
Proof. cbn [got host]. apply (get_keeps _ _ faithful). Qed.

Lemma peek_put_same st id v (s : State H) :
  peek (host (put table st id v s)) (getter_for st) id = v.
Proof. cbn [put host]. apply (set_stores _ _ faithful). Qed.

Lemma peek_put_other st id v (s : State H) g' id' :
  (g', id') <> (getter_for st, id) ->
  peek (host (put table st id v s)) g' id' = peek (host s) g' id'.
Proof. cbn [put host]. apply (set_keeps _ _ faithful). Qed.

Lemma peek_add_assign_same (a : Axis) (inc : f32) (s : State H) :
  peek (host (add_assign_state table a inc s))
       (getter_of Position a) (currentEntityId s)
  = f32_add (peek (host s) (getter_of Position a) (currentEntityId s)) inc.
Proof.
  unfold add_assign_state. cbv zeta.
  set (id := currentEntityId s).
  pose proof (peek_put_same (setter_of Position a) id
                (f32_add (fst (host_get table (getter_of Position a) id
                                 (host s))) inc)
                (got table (getter_of Position a) id s)) as E.
  replace (getter_for (setter_of Position a)) with (getter_of Position a)
    in E by (destruct a; reflexivity).
  rewrite E, (get_returns _ _ faithful). reflexivity.
Qed.

Lemma peek_add_assign_other (a : Axis) (inc : f32) (s : State H) g' id' :
  g' <> getter_of Position a ->
  peek (host (add_assign_state table a inc s)) g' id' = peek (host s) g' id'.
Proof.
  intros Hne. unfold add_assign_state.
  rewrite peek_put_other.
  - apply peek_got.
  - intros [= Hg _]. apply Hne. rewrite Hg. destruct a; reflexivity.
Qed.

(** C9. Over a host table that behaves as a store: after the host sets
    the current entity to [7] and calls [init()], channels position.x and
    position.y of entity [7] hold [-2.0] and [1.0]; after [update(0.5)]
    they hold the binary32 values [-12540969 * 2^-23] and
    [12624855 * 2^-23], which are the binary32 numbers nearest to [-1.495]
    and [1.505]. *)
Theorem mover_moves_entity_7 (s : State H) :
  Reachable table s ->
  exists s1 s2,
    mover_start table s = Some (tt, s1) /\
    peek (host s1) get_entity_position_x 7 = f32_neg_2_0 /\
    peek (host s1) get_entity_position_y 7 = f32_1_0 /\
    mover_update table f32_0_5 s1 = Some (tt, s2) /\
    peek (host s2) get_entity_position_x 7 = mover_final_x /\
    peek (host s2) get_entity_position_y 7 = mover_final_y /\
    f32_nearest (-1495 # 1000) mover_final_x = true /\
    f32_nearest (1505 # 1000) mover_final_y = true.
Proof.
  intros Hr. apply reachable_wf in Hr.
  pose (s7 := with_current 7 s).
  assert (Hw7 : wf s7 = true) by exact Hr.
  pose (s1 := mover_init_state table s7).
  assert (Hw1 : wf s1 = true) by exact (wf_settle s7 Hw7).
  assert (Hh1 : cache_hit s1 = true) by exact (cache_hit_settle s7).
  assert (Hx1 : peek (host s1) get_entity_position_x 7 = f32_neg_2_0).
  { unfold s1, mover_init_state. rewrite !peek_got.
    rewrite peek_put_other by discriminate.
    apply (peek_put_same set_entity_position_x). }
  assert (Hy1 : peek (host s1) get_entity_position_y 7 = f32_1_0).
  { unfold s1, mover_init_state. rewrite !peek_got.
    apply (peek_put_same set_entity_position_y). }
  assert (Hc1 : currentEntityId s1 = 7).
  { unfold s1, mover_init_state. cbn [got put currentEntityId].
    apply currentEntityId_settle. }
  exists s1, (mover_update_state table f32_0_5 s1).
  split.
  { unfold mover_start, bind, setCurrentEntity.
    fold (with_current 7 s). fold s7. apply (mover_init_eq s7 Hw7). }
  split; [exact Hx1|]. split; [exact Hy1|].
  split; [exact (mover_update_eq f32_0_5 s1 Hw1)|].
  unfold mover_update_state. rewrite (settle_hit s1 Hh1), Hc1.
  set (sa := got table get_entity_position_y 7
               (got table get_entity_position_x 7 s1)).
  assert (Hca : currentEntityId sa = 7) by exact Hc1.
  set (inc := f32_mul f32_0_5 f32_1_01).
  set (sx := add_assign_state table X inc sa).
  assert (Hcx : currentEntityId sx = 7) by exact Hc1.
  split; [|split; [|vm_compute; split; reflexivity]].
  - rewrite !peek_got.
    rewrite peek_add_assign_other by (cbn; discriminate).
    pose proof (peek_add_assign_same X inc sa) as E.
    cbn [getter_of] in E. rewrite Hca in E.
    unfold sx. rewrite E.
    unfold sa. rewrite !peek_got, Hx1. apply mover_final_x_eq.
  - rewrite !peek_got.
    pose proof (peek_add_assign_same Y inc sx) as E.
    cbn [getter_of] in E. rewrite Hcx in E. rewrite E.
    unfold sx. rewrite peek_add_assign_other by (cbn; discriminate).
    unfold sa. rewrite !peek_got, Hy1. apply mover_final_y_eq.
Qed.

End Faithful.

End Proofs.

(* ===================================================================== *)
(** ** The mock table is a faithful store; sample runs *)
(* ===================================================================== *)

Lemma mock_faithful : FaithfulStore mock_table cells.
Proof.
  split.
  - reflexivity.
  - reflexivity.
  - intros st id v h. cbn.
    rewrite bool_decide_eq_true_2 by reflexivity.
    rewrite Z.eqb_refl. reflexivity.
  - intros st id v h g' id' Hne. cbn.
    destruct (bool_decide (g' = getter_for st)) eqn:Eg; [|reflexivity].
    destruct (id' =? id) eqn:Ei; [|reflexivity].
    exfalso. apply Hne.
    apply bool_decide_eq_true in Eg. apply Z.eqb_eq in Ei. congruence.
Qed.

Lemma mock_faithful_pair (c : Category) (a : Axis) :
  faithful_pair mock_table c a.
Proof.
  intros id v h. cbn.
  replace (getter_for (setter_of c a)) with (getter_of c a)
    by (destruct c, a; reflexivity).
  rewrite bool_decide_eq_true_2 by reflexivity.
  rewrite Z.eqb_refl. reflexivity.
Qed.

Lemma run_reachable {H : Type} (table : HostTable H) (ops : list Op)
    (s s' : State H) :
  Reachable table s -> run table ops s = Some (tt, s') ->
  Reachable table s'.
Proof.
  revert s. induction ops as [|o ops IH]; intros s Hr.
  - intros [= <-]. exact Hr.
  - cbn [run]. unfold bind.
    destruct (exec table o s) as [[[] s1]|] eqn:E; [|discriminate].
    apply IH. exact (reach_step table s s1 o Hr E).
Qed.

Lemma mock_hit_reachable : Reachable mock_table mock_hit.
Proof.
  apply (run_reachable mock_table [OpSetCurrentEntity 7; OpSelf]
           (init_state mock_empty)).
  - apply reach_init.
  - vm_compute. reflexivity.
Qed.

Lemma mock_stale_reachable : Reachable mock_table mock_stale.
Proof.
  apply (run_reachable mock_table
           [OpSetCurrentEntity 7; OpSelf; OpSetCurrentEntity 9]
           (init_state mock_empty)).
  - apply reach_init.
  - vm_compute. reflexivity.
Qed.

(** Sample run for C1: a missing cache and a stale cache are rebuilt, a
    matching cache is returned as it is. *)
Lemma self_algorithm_witness :
  rebuilds (init_state mock_empty) /\
  rebuilds mock_stale /\
  self mock_hit = Some (4%nat, mock_hit).
Proof.
  split; [|split].
  - destruct (self_algorithm mock_table (init_state mock_empty)
                (reach_init mock_table mock_empty)) as (_ & Hmiss & _ & _).
    apply Hmiss. reflexivity.
  - destruct (self_algorithm mock_table mock_stale mock_stale_reachable)
      as (_ & _ & Hstale & _).
    apply (Hstale 4%nat entity_7).
    + reflexivity.
    + reflexivity.
    + vm_compute. discriminate.
  - destruct (self_algorithm mock_table mock_hit mock_hit_reachable)
      as (_ & _ & _ & Hhit).
    apply (Hhit 4%nat entity_7); reflexivity.
Defined.

(** Sample run for C2: [self()], then a busy sequence without
    [setCurrentEntity], then [self()] again. *)
Lemma self_stable_witness :
  exists r s1 s2,
    self (init_state mock_empty) = Some (r, s1) /\
    self_calls 3 s1 = Some ([r; r; r], s1) /\
    run mock_table busy_ops s1 = Some (tt, s2) /\
    self s2 = Some (r, s2).
Proof.
  destruct (self_stable_without_setCurrentEntity mock_table
              (init_state mock_empty) 3 busy_ops
              (reach_init mock_table mock_empty) eq_refl)
    as (r & s1 & Hs & Hn & Hk).
  vm_compute in Hs. injection Hs as Hr Hs1. subst r s1.
  eexists _, _, _. split; [reflexivity|].
  split; [exact Hn|].
  split; [vm_compute; reflexivity|].
  apply Hk. vm_compute. reflexivity.
Defined.

(** Sample run for C3 with ids [1] and [2]. *)
Lemma switch_back_witness :
  exists h1 h2 h3 s',
    switch_back 1 2 (init_state mock_empty) = Some ((h1, h2, h3), s') /\
    h1 <> h3 /\
    Entity_get_id h1 s' = Some (1, s') /\
    Entity_get_id h3 s' = Some (1, s').
Proof.
  apply (switch_back_rebuilds mock_table (init_state mock_empty) 1 2).
  - apply reach_init.
  - discriminate.
Defined.

(** Sample run for C4: the handle cached for entity [7]. *)
Lemma handle_bound_witness :
  heap mock_hit !! 4%nat = Some (OEntity entity_7) /\
  same_entityId (heap mock_hit) entity_7 = true.
Proof.
  split; [reflexivity|].
  destruct (handle_bound_to_one_id mock_table mock_hit mock_hit_reachable)
    as (_ & Hinv & _).
  apply (Hinv 4%nat entity_7). reflexivity.
Defined.

(** Sample run for C5: rotation.y of the default entity. *)
Lemma channel_write_then_read_witness :
  exists s1 s2,
    write_channel mock_table Rotation Y f32_1_01 (init_state mock_empty)
    = Some (tt, s1) /\
    read_channel mock_table Rotation Y s1 = Some (f32_1_01, s2).
Proof.
  apply (channel_write_then_read mock_table Rotation Y f32_1_01
           (init_state mock_empty)).
  - apply reach_init.
  - apply mock_faithful_pair.
Defined.

(** Sample run for C6: two reads are two calls, also by the mock's own
    count. *)
Lemma vec3_access_witness :
  exists s',
    read_position_x_twice mock_table mock_hit
    = Some ((S754_zero false, S754_zero false), s') /\
    get_calls (host s') = 2%nat /\
    trace s' = [CallGet get_entity_position_x 7;
                CallGet get_entity_position_x 7].
Proof.
  destruct (vec3_access_is_one_host_call mock_table mock_hit
              mock_hit_reachable) as (_ & s' & Hrun & Hhost & Htr).
  exists s'. split; [exact Hrun|]. split.
  - rewrite Hhost. reflexivity.
  - rewrite Htr. reflexivity.
Defined.

(** Sample run for C7: switching from entity [7] to [9] keeps the cached
    handle until [self()] is called. *)
Lemma setCurrentEntity_witness :
  setCurrentEntity 9 mock_hit = Some (tt, mock_stale) /\
  _self mock_stale = Some 4%nat /\
  rebuilds mock_stale.
Proof.
  destruct (setCurrentEntity_only_sets_id 9 mock_hit) as [Hset Hlazy].
  split; [exact Hset|]. split; [reflexivity|].
  apply (Hlazy 4%nat entity_7).
  - reflexivity.
  - reflexivity.
  - discriminate.
Defined.

(** Sample run for C9 on the mock table. *)
Lemma mover_witness :
  exists s1 s2,
    mover_start mock_table (init_state mock_empty) = Some (tt, s1) /\
    cells (host s1) get_entity_position_x 7 = f32_neg_2_0 /\
    cells (host s1) get_entity_position_y 7 = f32_1_0 /\
    mover_update mock_table f32_0_5 s1 = Some (tt, s2) /\
    cells (host s2) get_entity_position_x 7 = mover_final_x /\
    cells (host s2) get_entity_position_y 7 = mover_final_y /\
    f32_nearest (-1495 # 1000) mover_final_x = true /\
    f32_nearest (1505 # 1000) mover_final_y = true.
Proof.
  apply (mover_moves_entity_7 mock_table cells mock_faithful
           (init_state mock_empty)).
  apply reach_init.
Defined.

(** Sample run for C10: [setCurrentEntity(7)] while the handle of entity
    [7] is cached. *)
Lemma setCurrentEntity_same_id_witness :
  exists s',
    (setCurrentEntity 7 ;; self) mock_hit = Some (4%nat, s') /\
    _self s' = Some 4%nat /\
    heap s' = heap mock_hit /\
    currentEntityId s' = 7.
Proof.
  apply (setCurrentEntity_same_id_keeps_handle mock_hit 4%nat entity_7);
    reflexivity.
Defined.

(* ===================================================================== *)
(** ** Further properties of the nested bridge *)
(* ===================================================================== *)

Section MoreBridge.

Context {H : Type}.
Variable table : HostTable H.

Lemma run_wf (ops : list Op) (s s' : State H) :
  wf s = true -> run table ops s = Some (tt, s') -> wf s' = true.
Proof.
  revert s. induction ops as [|o ops IH]; intros s Hwf.
  - intros [= <-]. exact Hwf.
  - cbn [run]. unfold bind.
    destruct (exec table o s) as [[[] s1]|] eqn:E; [|discriminate].
    apply IH. exact (exec_wf table o s s1 Hwf E).
Qed.

Lemma run_keeps (ops : list Op) (s s' : State H) (r : ref) (o : Obj) :
  wf s = true -> run table ops s = Some (tt, s') ->
  heap s !! r = Some o -> heap s' !! r = Some o.
Proof.
  revert s. induction ops as [|op ops IH]; intros s Hwf.
  - intros [= <-]. trivial.
  - cbn [run]. unfold bind.
    destruct (exec table op s) as [[[] s1]|] eqn:E; [|discriminate].
    intros Hrun Hl. apply (IH s1 (exec_wf table op s s1 Hwf E) Hrun).
    destruct (exec_heap table op s s1 Hwf E) as [l ->].
    apply lookup_grow, Hl.
Qed.

(** X1. A [Vec3] taken from [self().transform.<c>] stays bound to the
    entity that was current when it was taken: after any later operations,
    switches of the current entity included, its accessors still call the
    functions of channel [c] with that entity's id. *)
Theorem held_vec3_keeps_entity
    (c : Category) (a : Axis) (ops : list Op) (v : ref) (s s1 s2 : State H) :
  Reachable table s ->
  self_transform c s = Some (v, s1) ->
  run table ops s1 = Some (tt, s2) ->
  Vec3_get table a v s2
  = call_getter table (getter_of c a) (currentEntityId s) s2 /\
  forall val,
    Vec3_set table a v val s2
    = call_setter table (setter_of c a) (currentEntityId s) val s2.
Proof.
  intros Hr Hst Hrun. apply reachable_wf in Hr.
  destruct (self_transform_settle c s Hr)
    as (v0 & vec & Hst0 & Hv & Hid & Hacc).
  rewrite Hst0 in Hst. injection Hst as -> <-.
  pose proof (run_keeps ops _ _ _ _ (wf_settle s Hr) Hrun Hv) as Hv2.
  destruct (Hacc a) as [Hg Hs]. split.
  - rewrite (Vec3_get_eq table a v vec s2 Hv2), Hg, Hid. reflexivity.
  - intros val.
    rewrite (Vec3_set_eq table a v vec val s2 Hv2), Hs, Hid. reflexivity.
Qed.

(** *** Allocation *)






End MoreBridge.

(* ===================================================================== *)
(** ** The bridge over a host that behaves as a store *)
(* ===================================================================== *)

Lemma getter_of_inj (c c' : Category) (a a' : Axis) :
  getter_of c a = getter_of c' a' -> (c, a) = (c', a').
Proof. destruct c, a, c', a'; (discriminate || reflexivity). Qed.

Lemma getter_for_setter_of (c : Category) (a : Axis) :
  getter_for (setter_of c a) = getter_of c a.
Proof. destruct c, a; reflexivity. Qed.

Lemma f32_add_nan (x : f32) : f32_add x S754_nan = S754_nan.
Proof. destruct x; reflexivity. Qed.

Lemma f32_mul_nan (y : f32) : f32_mul S754_nan y = S754_nan.
Proof. reflexivity. Qed.

Lemma f32_add_zero_step (x : f32) :
  x <> S754_zero true ->
  f32_add x (f32_mul (S754_zero false) f32_1_01) = x.
Proof.
  intros Hx. destruct x as [[|]| | |]; try reflexivity.
  contradiction.
Qed.

Section Store.

Context {H : Type}.
Variable table : HostTable H.
Variable peek : H -> HostGetter -> u32 -> f32.
Hypothesis faithful : FaithfulStore table peek.

Lemma setCurrentEntity_bind {B : Type} (id : u32) (k : unit -> M H B)
    (s : State H) :
  bind (setCurrentEntity id) k s = k tt (with_current id s).
Proof. reflexivity. Qed.

(** A read through the bridge returns the stored value of the current
    entity's channel and changes no stored value. *)
Lemma read_channel_view (c : Category) (a : Axis) (s : State H) :
  wf s = true ->
  exists s',
    read_channel table c a s
    = Some (peek (host s) (getter_of c a) (currentEntityId s), s') /\
    (forall g id, peek (host s') g id = peek (host s) g id) /\
    currentEntityId s' = currentEntityId s /\
    wf s' = true.
Proof.
  intros Hwf.
  exists (got table (getter_of c a) (currentEntityId s) (settle s)).
  split; [|split; [|split]].
  - rewrite (read_channel_eq table c a s Hwf), call_getter_eq.
    rewrite (get_returns _ _ faithful), host_settle. reflexivity.
  - intros g id. rewrite (peek_got table peek faithful), host_settle.
    reflexivity.
  - apply currentEntityId_settle.
  - exact (wf_settle s Hwf).
Qed.

(** A write through the bridge stores the value in the current entity's
    channel and changes no other stored value. *)
Lemma write_channel_view (c : Category) (a : Axis) (v : f32) (s : State H) :
  wf s = true ->
  exists s',
    write_channel table c a v s = Some (tt, s') /\
    peek (host s') (getter_of c a) (currentEntityId s) = v /\
    (forall g id,
        (g, id) <> (getter_of c a, currentEntityId s) ->
        peek (host s') g id = peek (host s) g id) /\
    currentEntityId s' = currentEntityId s /\
    wf s' = true.
Proof.
  intros Hwf.
  exists (put table (setter_of c a) (currentEntityId s) v (settle s)).
  split; [|split; [|split; [|split]]].
  - rewrite (write_channel_eq table c a v s Hwf), call_setter_eq.
    reflexivity.
  - rewrite <- (getter_for_setter_of c a).
    apply (peek_put_same table peek faithful).
  - intros g id Hne.
    rewrite (peek_put_other table peek faithful), host_settle;
      [reflexivity|].
    rewrite getter_for_setter_of. exact Hne.
  - apply currentEntityId_settle.
  - exact (wf_settle s Hwf).
Qed.

(** X2. The nine channels of an entity do not alias: a write to one
    channel through the bridge leaves what a following read of any other
    channel returns as it was before the write. *)
Theorem channels_do_not_alias
    (c c' : Category) (a a' : Axis) (v : f32) (s : State H) :
  Reachable table s ->
  (c, a) <> (c', a') ->
  exists s1 s2,
    write_channel table c a v s = Some (tt, s1) /\
    read_channel table c' a' s1
    = Some (peek (host s) (getter_of c' a') (currentEntityId s), s2).
Proof.
  intros Hr Hne. apply reachable_wf in Hr.
  destruct (write_channel_view c a v s Hr) as (s1 & Hw & _ & Hk & Hc & Hwf1).
  destruct (read_channel_view c' a' s1 Hwf1) as (s2 & Hrd & _).
  exists s1, s2. split; [exact Hw|].
  rewrite Hrd, Hc, Hk; [reflexivity|].
  intros [= Hg]. apply Hne. symmetry. exact (getter_of_inj _ _ _ _ Hg).
Qed.

(** X3. Entities are isolated from each other: a write made while [e1] is
    current does not change what is read, on any channel, once a different
    entity [e2] is current. *)
Theorem write_does_not_reach_other_entity
    (e1 e2 : u32) (c c' : Category) (a a' : Axis) (v : f32) (s : State H) :
  Reachable table s ->
  e1 <> e2 ->
  exists s',
    write_then_read_other table e1 e2 c a v c' a' s
    = Some (peek (host s) (getter_of c' a') e2, s').
Proof.
  intros Hr Hne. apply reachable_wf in Hr.
  destruct (write_channel_view c a v (with_current e1 s) Hr)
    as (s1 & Hw & _ & Hk & Hc & Hwf1).
  destruct (read_channel_view c' a' (with_current e2 s1) Hwf1)
    as (s2 & Hrd & _).
  exists s2. unfold write_then_read_other.
  rewrite setCurrentEntity_bind. unfold bind at 1. rewrite Hw.
  rewrite setCurrentEntity_bind, Hrd.
  cbn [with_current host currentEntityId] in *.
  rewrite Hk; [reflexivity|]. intros [= _ He]. congruence.
Qed.

(** X4. What a script writes for its entity survives the work of another
    entity's script: after a write for [e1], a switch to a different
    entity [e2], any write there, and a switch back, the read returns the
    value written for [e1]. *)
Theorem write_survives_visit_to_other_entity
    (e1 e2 : u32) (c c' : Category) (a a' : Axis) (v w : f32)
    (s : State H) :
  Reachable table s ->
  e1 <> e2 ->
  exists s',
    write_visit_read table e1 e2 c a v c' a' w s = Some (v, s').
Proof.
  intros Hr Hne. apply reachable_wf in Hr.
  destruct (write_channel_view c a v (with_current e1 s) Hr)
    as (s1 & Hw1 & Hv1 & _ & _ & Hwf1).
  destruct (write_channel_view c' a' w (with_current e2 s1) Hwf1)
    as (s2 & Hw2 & _ & Hk2 & _ & Hwf2).
  destruct (read_channel_view c a (with_current e1 s2) Hwf2)
    as (s3 & Hrd & _).
  exists s3. unfold write_visit_read.
  rewrite setCurrentEntity_bind. unfold bind at 1. rewrite Hw1.
  rewrite setCurrentEntity_bind. unfold bind at 1. rewrite Hw2.
  rewrite setCurrentEntity_bind, Hrd.
  cbn [with_current host currentEntityId] in *.
  rewrite Hk2, Hv1; [reflexivity|]. intros [= _ He]. congruence.
Qed.

End Store.

(* ===================================================================== *)
(** ** The sample script in general *)
(* ===================================================================== *)

Section MoverCalls.

Context {H : Type}.
Variable table : HostTable H.

(** X7. Host traffic of the sample script, over any host: [init()] makes
    four host calls for the current entity (the two stores, then the two
    loads for the log line), and [update(dt)] makes eight (load x, load y,
    load and store x, load and store y, load x, load y), all of them for
    the current entity and none on the z axis, rotation or scale. *)
Theorem mover_host_calls (dt : f32) (s : State H) :
  Reachable table s ->
  let id := currentEntityId s in
  exists s1 s2 l,
    mover_init table s = Some (tt, s1) /\
    trace s1 = trace s ++ [CallSet set_entity_position_x id f32_neg_2_0;
                           CallSet set_entity_position_y id f32_1_0;
                           CallGet get_entity_position_x id;
                           CallGet get_entity_position_y id] /\
    mover_update table dt s = Some (tt, s2) /\
    trace s2 = trace s ++ l /\
    map called l = [(Getter get_entity_position_x, id);
                    (Getter get_entity_position_y, id);
                    (Getter get_entity_position_x, id);
                    (Setter set_entity_position_x, id);
                    (Getter get_entity_position_y, id);
                    (Setter set_entity_position_y, id);
                    (Getter get_entity_position_x, id);
                    (Getter get_entity_position_y, id)].
Proof.
  intros Hr id. apply reachable_wf in Hr.
  eexists _, _, _.
  split; [exact (mover_init_eq table s Hr)|].
  split.
  { unfold mover_init_state. cbn [got put trace].
    rewrite trace_settle, <- !app_assoc. reflexivity. }
  split; [exact (mover_update_eq table dt s Hr)|].
  split.
  { unfold mover_update_state, add_assign_state.
    cbn [got put trace currentEntityId host].
    rewrite trace_settle, <- !app_assoc. cbn [app]. reflexivity. }
  cbn [map called getter_of setter_of].
  rewrite !currentEntityId_settle. reflexivity.
Qed.

End MoverCalls.

Section MoverStore.

Context {H : Type}.
Variable table : HostTable H.
Variable peek : H -> HostGetter -> u32 -> f32.
Hypothesis faithful : FaithfulStore table peek.

Lemma peek_add_assign_frame (a : Axis) (inc : f32) (s : State H) g' id' :
  (g', id') <> (getter_of Position a, currentEntityId s) ->
  peek (host (add_assign_state table a inc s)) g' id' = peek (host s) g' id'.
Proof.
  intros Hne. unfold add_assign_state. cbv zeta.
  rewrite (peek_put_other table peek faithful).
  - apply (peek_got table peek faithful).
  - rewrite getter_for_setter_of. exact Hne.
Qed.

(** What [init()] of the script leaves in the store. *)
Lemma mover_init_view (s : State H) :
  wf s = true ->
  let s' := mover_init_state table s in
  let id := currentEntityId s in
  peek (host s') get_entity_position_x id = f32_neg_2_0 /\
  peek (host s') get_entity_position_y id = f32_1_0 /\
  (forall g i,
      (g, i) <> (get_entity_position_x, id) ->
      (g, i) <> (get_entity_position_y, id) ->
      peek (host s') g i = peek (host s) g i) /\
  currentEntityId s' = id /\
  wf s' = true.
Proof.
  intros Hwf s' id. unfold s', mover_init_state. fold id.
  split; [|split; [|split; [|split]]].
  - rewrite !(peek_got table peek faithful).
    rewrite (peek_put_other table peek faithful)
      by (intros [= ?]; discriminate).
    apply (peek_put_same table peek faithful set_entity_position_x).
  - rewrite !(peek_got table peek faithful).
    apply (peek_put_same table peek faithful set_entity_position_y).
  - intros g i Hx Hy.
    rewrite !(peek_got table peek faithful).
    rewrite !(peek_put_other table peek faithful) by assumption.
    rewrite host_settle. reflexivity.
  - cbn [got put currentEntityId]. apply currentEntityId_settle.
  - exact (wf_settle s Hwf).
Qed.

(** What [update(dt)] of the script does to the store. *)
Lemma mover_update_view (dt : f32) (s : State H) :
  wf s = true ->
  let s' := mover_update_state table dt s in
  let id := currentEntityId s in
  let inc := f32_mul dt f32_1_01 in
  peek (host s') get_entity_position_x id
  = f32_add (peek (host s) get_entity_position_x id) inc /\
  peek (host s') get_entity_position_y id
  = f32_add (peek (host s) get_entity_position_y id) inc /\
  (forall g i,
      (g, i) <> (get_entity_position_x, id) ->
      (g, i) <> (get_entity_position_y, id) ->
      peek (host s') g i = peek (host s) g i) /\
  currentEntityId s' = id /\
  wf s' = true.
Proof.
  intros Hwf s' id inc. unfold s', mover_update_state. fold id. fold inc.
  pose proof (currentEntityId_settle s) as Hc0. fold id in Hc0.
  pose proof (host_settle s) as Hh0.
  set (s0 := settle s) in *.
  set (sa := got table get_entity_position_y id
               (got table get_entity_position_x id s0)).
  assert (Hca : currentEntityId sa = id) by exact Hc0.
  assert (Hpa : forall g i, peek (host sa) g i = peek (host s) g i).
  { intros g i. unfold sa. rewrite !(peek_got table peek faithful), Hh0.
    reflexivity. }
  set (sx := add_assign_state table X inc sa).
  assert (Hcx : currentEntityId sx = id) by exact Hc0.
  set (sy := add_assign_state table Y inc sx).
  pose proof (peek_add_assign_same table peek faithful X inc sa) as Ex.
  cbn [getter_of] in Ex. rewrite Hca in Ex. fold sx in Ex.
  pose proof (peek_add_assign_same table peek faithful Y inc sx) as Ey.
  cbn [getter_of] in Ey. rewrite Hcx in Ey. fold sy in Ey.
  split; [|split; [|split; [|split]]].
  - rewrite !(peek_got table peek faithful). unfold sy.
    rewrite peek_add_assign_frame
      by (cbn [getter_of]; intros [= ?]; discriminate).
    rewrite Ex, Hpa. reflexivity.
  - rewrite !(peek_got table peek faithful). rewrite Ey. unfold sx.
    rewrite peek_add_assign_frame
      by (cbn [getter_of]; intros [= ?]; discriminate).
    rewrite Hpa. reflexivity.
  - intros g i Hx Hy.
    rewrite !(peek_got table peek faithful). unfold sy.
    rewrite peek_add_assign_frame by (cbn [getter_of]; rewrite Hcx; exact Hy).
    unfold sx.
    rewrite peek_add_assign_frame by (cbn [getter_of]; rewrite Hca; exact Hx).
    apply Hpa.
  - exact Hc0.
  - exact (wf_settle s Hwf).
Qed.

(** X6. [update(dt)] of the script, in any reachable state and for any
    [dt]: position.x and position.y of the current entity each become the
    binary32 sum of their old value and the binary32 product [dt * 1.01];
    no other channel of any entity changes. *)
Theorem mover_update_effect (dt : f32) (s : State H) :
  Reachable table s ->
  let id := currentEntityId s in
  let inc := f32_mul dt f32_1_01 in
  exists s',
    mover_update table dt s = Some (tt, s') /\
    peek (host s') get_entity_position_x id
    = f32_add (peek (host s) get_entity_position_x id) inc /\
    peek (host s') get_entity_position_y id
    = f32_add (peek (host s) get_entity_position_y id) inc /\
    (forall g i,
        (g, i) <> (get_entity_position_x, id) ->
        (g, i) <> (get_entity_position_y, id) ->
        peek (host s') g i = peek (host s) g i).
Proof.
  intros Hr id inc. apply reachable_wf in Hr.
  destruct (mover_update_view dt s Hr) as (Hx & Hy & Hk & _).
  exists (mover_update_state table dt s).
  split; [exact (mover_update_eq table dt s Hr)|].
  split; [exact Hx|]. split; [exact Hy|exact Hk].
Qed.

(** X8. [init()] of the script, in any reachable state: position.x and
    position.y of the current entity become [-2.0] and [1.0]; position.z,
    rotation and scale of that entity and every channel of every other
    entity keep their values. *)
Theorem mover_init_effect (s : State H) :
  Reachable table s ->
  let id := currentEntityId s in
  exists s',
    mover_init table s = Some (tt, s') /\
    peek (host s') get_entity_position_x id = f32_neg_2_0 /\
    peek (host s') get_entity_position_y id = f32_1_0 /\
    (forall g i,
        (g, i) <> (get_entity_position_x, id) ->
        (g, i) <> (get_entity_position_y, id) ->
        peek (host s') g i = peek (host s) g i).
Proof.
  intros Hr id. apply reachable_wf in Hr.
  destruct (mover_init_view s Hr) as (Hx & Hy & Hk & _).
  exists (mover_init_state table s).
  split; [exact (mover_init_eq table s Hr)|].
  split; [exact Hx|]. split; [exact Hy|exact Hk].
Qed.

(** X9. [update] does not sanitise [deltaTime]: called with NaN it stores
    NaN in position.x and position.y of the current entity, whatever they
    held before. *)
Theorem mover_update_nan (s : State H) :
  Reachable table s ->
  exists s',
    mover_update table S754_nan s = Some (tt, s') /\
    peek (host s') get_entity_position_x (currentEntityId s) = S754_nan /\
    peek (host s') get_entity_position_y (currentEntityId s) = S754_nan.
Proof.
  intros Hr. apply reachable_wf in Hr.
  destruct (mover_update_view S754_nan s Hr) as (Hx & Hy & _).
  exists (mover_update_state table S754_nan s).
  split; [exact (mover_update_eq table S754_nan s Hr)|].
  rewrite Hx, Hy, f32_mul_nan, !f32_add_nan. split; reflexivity.
Qed.

(** X10. [update(0.0)] leaves the position as it is, for every stored
    value other than negative zero (whose sum with [+0.0] is [+0.0]):
    finite values, infinities and NaN are all kept. *)
Theorem mover_update_zero (s : State H) :
  Reachable table s ->
  peek (host s) get_entity_position_x (currentEntityId s) <> S754_zero true ->
  peek (host s) get_entity_position_y (currentEntityId s) <> S754_zero true ->
  exists s',
    mover_update table (S754_zero false) s = Some (tt, s') /\
    forall g i, peek (host s') g i = peek (host s) g i.
Proof.
  intros Hr Hnx Hny. apply reachable_wf in Hr.
  destruct (mover_update_view (S754_zero false) s Hr) as (Hx & Hy & Hk & _).
  exists (mover_update_state table (S754_zero false) s).
  split; [exact (mover_update_eq table (S754_zero false) s Hr)|].
  intros g i.
  destruct (decide ((g, i) = (get_entity_position_x, currentEntityId s)))
    as [[= -> ->]|Nx].
  { rewrite Hx. apply f32_add_zero_step, Hnx. }
  destruct (decide ((g, i) = (get_entity_position_y, currentEntityId s)))
    as [[= -> ->]|Ny].
  { rewrite Hy. apply f32_add_zero_step, Hny. }
  apply Hk; assumption.
Qed.

Lemma run_updates_view (n : nat) (dt : f32) (s : State H) :
  wf s = true ->
  let id := currentEntityId s in
  let step := fun x => f32_add x (f32_mul dt f32_1_01) in
  exists s',
    run table (replicate n (OpMoverUpdate dt)) s = Some (tt, s') /\
    peek (host s') get_entity_position_x id
    = Nat.iter n step (peek (host s) get_entity_position_x id) /\
    peek (host s') get_entity_position_y id
    = Nat.iter n step (peek (host s) get_entity_position_y id) /\
    (forall g i,
        (g, i) <> (get_entity_position_x, id) ->
        (g, i) <> (get_entity_position_y, id) ->
        peek (host s') g i = peek (host s) g i).
Proof.
  revert s. induction n as [|n IH]; intros s Hwf id step.
  - exists s. repeat split; reflexivity.
  - destruct (mover_update_view dt s Hwf) as (Hx & Hy & Hk & Hc & Hwf1).
    fold id in Hx, Hy, Hk, Hc.
    destruct (IH _ Hwf1) as (s' & Hrun & Hx' & Hy' & Hk').
    rewrite Hc in Hx', Hy', Hk'.
    exists s'. split; [|split; [|split]].
    + cbn [replicate run exec]. unfold bind.
      rewrite (mover_update_eq table dt s Hwf). exact Hrun.
    + rewrite Hx', Hx, Nat.iter_succ_r. reflexivity.
    + rewrite Hy', Hy, Nat.iter_succ_r. reflexivity.
    + intros g i Nx Ny. rewrite (Hk' g i Nx Ny). exact (Hk g i Nx Ny).
Qed.

(** X11. [n] calls of [update(dt)] in a row add [dt * 1.01] to position.x
    and position.y of the current entity [n] times, one binary32 addition
    after the other, and change nothing else. *)
Theorem mover_updates_accumulate (n : nat) (dt : f32) (s : State H) :
  Reachable table s ->
  let id := currentEntityId s in
  let step := fun x => f32_add x (f32_mul dt f32_1_01) in
  exists s',
    run table (replicate n (OpMoverUpdate dt)) s = Some (tt, s') /\
    peek (host s') get_entity_position_x id
    = Nat.iter n step (peek (host s) get_entity_position_x id) /\
    peek (host s') get_entity_position_y id
    = Nat.iter n step (peek (host s) get_entity_position_y id) /\
    (forall g i,
        (g, i) <> (get_entity_position_x, id) ->
        (g, i) <> (get_entity_position_y, id) ->
        peek (host s') g i = peek (host s) g i).
Proof.
  intros Hr. apply reachable_wf in Hr. exact (run_updates_view n dt s Hr).
Qed.

End MoverStore.

(* ===================================================================== *)
(** ** The flattened bridge *)
(* ===================================================================== *)

Lemma lookup_snoc {A : Type} (l : list A) (x : A) :
  (l ++ [x]) !! length l = Some x.
Proof. apply list_lookup_middle. reflexivity. Qed.

Section FlatProofs.

Context {H : Type}.
Variable table : HostTable H.

(** The state after [self()] of the flattened bridge. *)
Lemma flat_self_eq (fs : FlatState H) :
  flat_self fs
  = Some (length (flat_heap fs),
          mkFlat (flat_currentEntityId fs)
                 (flat_heap fs
                  ++ [{| EntityProxy_id := flat_currentEntityId fs |}])
                 (flat_host fs) (flat_trace fs)).
Proof. reflexivity. Qed.

Lemma EntityProxy_get_eq (a : Axis) (this : ref) (p : EntityProxy)
    (fs : FlatState H) :
  flat_heap fs !! this = Some p ->
  EntityProxy_get table a this fs
  = flat_call_getter table (getter_of Position a) (EntityProxy_id p) fs.
Proof.
  intros Hl.
  destruct a; unfold EntityProxy_get, EntityProxy_get_positionX,
    EntityProxy_get_positionY, EntityProxy_get_positionZ,
    load_EntityProxy, flat_bind; rewrite Hl; reflexivity.
Qed.

Lemma EntityProxy_set_eq (a : Axis) (this : ref) (p : EntityProxy)
    (val : f32) (fs : FlatState H) :
  flat_heap fs !! this = Some p ->
  EntityProxy_set table a this val fs
  = flat_call_setter table (setter_of Position a) (EntityProxy_id p) val fs.
Proof.
  intros Hl.
  destruct a; unfold EntityProxy_set, EntityProxy_set_positionX,
    EntityProxy_set_positionY, EntityProxy_set_positionZ,
    load_EntityProxy, flat_bind; rewrite Hl; reflexivity.
Qed.

Lemma flat_call_getter_eq (g : HostGetter) (id : u32) (fs : FlatState H) :
  flat_call_getter table g id fs
  = Some (fst (host_get table g id (flat_host fs)),
          mkFlat (flat_currentEntityId fs) (flat_heap fs)
                 (snd (host_get table g id (flat_host fs)))
                 (flat_trace fs ++ [CallGet g id])).
Proof.
  unfold flat_call_getter. destruct (host_get table g id (flat_host fs)).
  reflexivity.
Qed.

Lemma flat_read_eq (a : Axis) (fs : FlatState H) :
  let id := flat_currentEntityId fs in
  let r := host_get table (getter_of Position a) id (flat_host fs) in
  flat_read table a fs
  = Some (fst r,
          mkFlat id (flat_heap fs ++ [{| EntityProxy_id := id |}])
                 (snd r)
                 (flat_trace fs ++ [CallGet (getter_of Position a) id])).
Proof.
  intros id r. unfold flat_read, flat_bind. rewrite flat_self_eq.
  erewrite EntityProxy_get_eq by apply lookup_snoc.
  rewrite flat_call_getter_eq. reflexivity.
Qed.

Lemma flat_write_eq (a : Axis) (val : f32) (fs : FlatState H) :
  let id := flat_currentEntityId fs in
  flat_write table a val fs
  = Some (tt,
          mkFlat id (flat_heap fs ++ [{| EntityProxy_id := id |}])
                 (host_set table (setter_of Position a) id val (flat_host fs))
                 (flat_trace fs ++ [CallSet (setter_of Position a) id val])).
Proof.
  intros id. unfold flat_write, flat_bind. rewrite flat_self_eq.
  erewrite EntityProxy_set_eq by apply lookup_snoc.
  reflexivity.
Qed.

(** X12. The flattened [self()] does not cache: in every state it
    allocates a new proxy for the current entity, so two calls in a row
    return two different references, both to proxies of the current
    entity. *)
Theorem flat_self_never_reuses (fs : FlatState H) :
  exists r1 r2 fs',
    flat_self_twice fs = Some ((r1, r2), fs') /\
    r1 <> r2 /\
    flat_heap fs !! r1 = None /\
    flat_heap fs' !! r1
    = Some {| EntityProxy_id := flat_currentEntityId fs |} /\
    flat_heap fs' !! r2
    = Some {| EntityProxy_id := flat_currentEntityId fs |} /\
    length (flat_heap fs') = (2 + length (flat_heap fs))%nat.
Proof.
  set (p := {| EntityProxy_id := flat_currentEntityId fs |}).
  exists (length (flat_heap fs)), (length (flat_heap fs ++ [p])),
    (mkFlat (flat_currentEntityId fs) ((flat_heap fs ++ [p]) ++ [p])
            (flat_host fs) (flat_trace fs)).
  split; [reflexivity|].
  split; [rewrite length_app; cbn [length]; lia|].
  split; [apply lookup_ge_None; lia|].
  cbn [flat_heap].
  split; [apply lookup_app_l_Some, lookup_snoc|].
  split; [apply lookup_snoc|].
  rewrite !length_app. cbn [length]. lia.
Qed.

(** X13. A proxy keeps the id it was created with: taken from [self()]
    while entity [k] is current and used after the host has switched to
    any [j], its getter is one host call for entity [k]. *)
Theorem flat_proxy_keeps_entity (a : Axis) (j : u32) (fs : FlatState H) :
  let k := flat_currentEntityId fs in
  let r := host_get table (getter_of Position a) k (flat_host fs) in
  exists fs',
    flat_read_after_switch table a j fs = Some (fst r, fs') /\
    flat_currentEntityId fs' = j /\
    flat_host fs' = snd r /\
    flat_trace fs' = flat_trace fs ++ [CallGet (getter_of Position a) k].
Proof.
  intros k r. eexists.
  split.
  - unfold flat_read_after_switch, flat_bind. rewrite flat_self_eq.
    unfold flat_setCurrentEntity. cbn [flat_heap flat_host flat_trace].
    erewrite EntityProxy_get_eq by (cbn [flat_heap]; apply lookup_snoc).
    rewrite flat_call_getter_eq. reflexivity.
  - repeat split.
Qed.

(** X15. On the position channels the two bridges are interchangeable for
    the host: from states with the same current entity, host state and
    call trace, [self().position<A>] on the flattened bridge and
    [self().transform.position.<a>] on the nested one return the same
    value, and a write of the same value through either leaves the same
    host state and call trace. *)
Theorem flat_and_nested_agree
    (a : Axis) (fs : FlatState H) (s : State H) :
  Reachable table s ->
  agree fs s ->
  (exists v fs' s',
      flat_read table a fs = Some (v, fs') /\
      read_channel table Position a s = Some (v, s') /\
      agree fs' s') /\
  (forall val, exists fs' s',
      flat_write table a val fs = Some (tt, fs') /\
      write_channel table Position a val s = Some (tt, s') /\
      agree fs' s').
Proof.
  intros Hr (Hc & Hh & Ht). apply reachable_wf in Hr. split.
  - eexists _, _, _.
    split; [apply flat_read_eq|].
    split.
    + rewrite (read_channel_eq table Position a s Hr), call_getter_eq.
      rewrite host_settle, Hc, Hh. reflexivity.
    + unfold agree. cbn [flat_currentEntityId flat_host flat_trace got
                         currentEntityId host trace].
      rewrite currentEntityId_settle, host_settle, trace_settle.
      rewrite Hc, Hh, Ht. repeat split.
  - intros val. eexists _, _.
    split; [apply flat_write_eq|].
    split.
    + rewrite (write_channel_eq table Position a val s Hr), call_setter_eq.
      reflexivity.
    + unfold agree. cbn [flat_currentEntityId flat_host flat_trace put
                         currentEntityId host trace].
      rewrite currentEntityId_settle, host_settle, trace_settle.
      rewrite Hc, Hh, Ht. repeat split.
Qed.

Section FlatStore.

Variable peek : H -> HostGetter -> u32 -> f32.
Hypothesis faithful : FaithfulStore table peek.

(** X14. The script of the flattened bridge over a host that behaves as a
    store: [init()] followed by [update(dt)] makes three host calls (store
    [-2.0], load, store the sum), leaves position.x of the current entity
    at the binary32 value [-2.0 + dt * 1.01], and changes no other
    channel. *)
Theorem flat_mover_moves_x (dt : f32) (fs : FlatState H) :
  let id := flat_currentEntityId fs in
  let x := f32_add f32_neg_2_0 (f32_mul dt f32_1_01) in
  exists fs',
    flat_mover_run table dt fs = Some (tt, fs') /\
    peek (flat_host fs') get_entity_position_x id = x /\
    (forall g i,
        (g, i) <> (get_entity_position_x, id) ->
        peek (flat_host fs') g i = peek (flat_host fs) g i) /\
    flat_trace fs'
    = flat_trace fs ++ [CallSet set_entity_position_x id f32_neg_2_0;
                        CallGet get_entity_position_x id;
                        CallSet set_entity_position_x id x].
Proof.
  intros id x.
  set (p := {| EntityProxy_id := id |}).
  set (h1 := host_set table set_entity_position_x id f32_neg_2_0
               (flat_host fs)).
  set (h2 := snd (host_get table get_entity_position_x id h1)).
  assert (Hold : fst (host_get table get_entity_position_x id h1)
                 = f32_neg_2_0).
  { rewrite (get_returns _ _ faithful). unfold h1.
    apply (set_stores _ _ faithful set_entity_position_x). }
  exists (mkFlat id (((flat_heap fs ++ [p]) ++ [p]) ++ [p])
                 (host_set table set_entity_position_x id x h2)
                 (((flat_trace fs
                    ++ [CallSet set_entity_position_x id f32_neg_2_0])
                   ++ [CallGet get_entity_position_x id])
                  ++ [CallSet set_entity_position_x id x])).
  split; [|split; [|split]].
  - unfold flat_mover_run, flat_mover_init, flat_mover_update, flat_bind.
    rewrite flat_self_eq.
    unfold EntityProxy_set_positionX at 1.
    unfold flat_bind, load_EntityProxy. cbn [flat_heap].
    rewrite lookup_snoc.
    unfold flat_call_setter at 1.
    cbn [flat_heap flat_host flat_trace flat_currentEntityId EntityProxy_id].
    rewrite !flat_self_eq.
    cbn [flat_heap flat_host flat_trace flat_currentEntityId].
    unfold EntityProxy_get_positionX, flat_bind, load_EntityProxy.
    cbn [flat_heap]. fold id. fold p. rewrite lookup_snoc.
    rewrite flat_call_getter_eq.
    cbn [flat_heap flat_host flat_trace flat_currentEntityId EntityProxy_id p].
    fold h1. rewrite Hold. fold h2. fold x.
    unfold EntityProxy_set_positionX, flat_bind, load_EntityProxy.
    cbn [flat_heap].
    rewrite (lookup_app_l_Some _ [p] _ _ (lookup_snoc (flat_heap fs ++ [p]) p)).
    reflexivity.
  - cbn [flat_host]. apply (set_stores _ _ faithful set_entity_position_x).
  - intros g i Hne. cbn [flat_host].
    rewrite (set_keeps _ _ faithful) by exact Hne.
    unfold h2. rewrite (get_keeps _ _ faithful). unfold h1.
    apply (set_keeps _ _ faithful). exact Hne.
  - cbn [flat_trace]. rewrite <- !app_assoc. reflexivity.
Qed.

End FlatStore.

End FlatProofs.

(* ===================================================================== *)
(** ** Sample runs of the further properties on the mock table *)
(* ===================================================================== *)

(** X1: a [Vec3] taken for entity [0] is used after a switch to [9]. *)
Lemma held_vec3_witness :
  exists v s1 s2,
    self_transform Position (init_state mock_empty) = Some (v, s1) /\
    run mock_table [OpSetCurrentEntity 9; OpSelf] s1 = Some (tt, s2) /\
    currentEntityId s2 = 9 /\
    Vec3_get mock_table X v s2
    = call_getter mock_table get_entity_position_x 0 s2.
Proof.
  eexists _, _, _.
  split; [vm_compute; reflexivity|].
  split; [vm_compute; reflexivity|].
  split; [reflexivity|].
  refine (proj1 (held_vec3_keeps_entity mock_table Position X
                   [OpSetCurrentEntity 9; OpSelf] _
                   (init_state mock_empty) _ _
                   (reach_init mock_table mock_empty) _ _));
    vm_compute; reflexivity.
Defined.

(** X2: a write to position.x does not show in position.y. *)
Lemma channels_do_not_alias_witness :
  (Position, X) <> (Position, Y) /\
  exists s1 s2,
    write_channel mock_table Position X f32_1_01 mock_hit = Some (tt, s1) /\
    read_channel mock_table Position Y s1 = Some (S754_zero false, s2).
Proof.
  split; [discriminate|].
  refine (channels_do_not_alias mock_table cells mock_faithful
            Position Position X Y f32_1_01 mock_hit mock_hit_reachable _).
  discriminate.
Defined.

(** X3: a write for entity [1] does not show for entity [2]. *)
Lemma write_does_not_reach_other_entity_witness :
  exists s',
    write_then_read_other mock_table 1 2 Scale Y f32_1_01 Scale Y
      (init_state mock_empty)
    = Some (S754_zero false, s').
Proof.
  refine (write_does_not_reach_other_entity mock_table cells mock_faithful
            1 2 Scale Scale Y Y f32_1_01 (init_state mock_empty)
            (reach_init mock_table mock_empty) _).
  discriminate.
Defined.

(** X4: the value written for entity [1] is read back after entity [2]
    has written the same channel. *)
Lemma write_survives_visit_witness :
  exists s',
    write_visit_read mock_table 1 2 Rotation X f32_1_01 Rotation X f32_0_5
      (init_state mock_empty)
    = Some (f32_1_01, s').
Proof.
  refine (write_survives_visit_to_other_entity mock_table cells
            mock_faithful 1 2 Rotation Rotation X X f32_1_01 f32_0_5
            (init_state mock_empty) (reach_init mock_table mock_empty) _).
  discriminate.
Defined.


(** X6: one [update(0.5)] for entity [7], whose position is still zero. *)
Lemma mover_update_effect_witness :
  exists s',
    mover_update mock_table f32_0_5 mock_hit = Some (tt, s') /\
    cells (host s') get_entity_position_x 7
    = f32_add (S754_zero false) (f32_mul f32_0_5 f32_1_01) /\
    cells (host s') get_entity_position_z 7 = S754_zero false.
Proof.
  destruct (mover_update_effect mock_table cells mock_faithful f32_0_5
              mock_hit mock_hit_reachable) as (s' & Hrun & Hx & _ & Hk).
  exists s'. split; [exact Hrun|]. split; [exact Hx|].
  apply (Hk get_entity_position_z 7); discriminate.
Defined.

(** X7: the host calls of [init()] and [update(0.5)] from the initial
    state. *)
Lemma mover_host_calls_witness :
  exists s1 s2 l,
    mover_init mock_table (init_state mock_empty) = Some (tt, s1) /\
    trace s1 = [CallSet set_entity_position_x 0 f32_neg_2_0;
                CallSet set_entity_position_y 0 f32_1_0;
                CallGet get_entity_position_x 0;
                CallGet get_entity_position_y 0] /\
    mover_update mock_table f32_0_5 (init_state mock_empty) = Some (tt, s2) /\
    trace s2 = l /\
    length l = 8%nat.
Proof.
  destruct (mover_host_calls mock_table f32_0_5 (init_state mock_empty)
              (reach_init mock_table mock_empty))
    as (s1 & s2 & l & Hi & Ht1 & Hu & Ht2 & Hl).
  exists s1, s2, l.
  split; [exact Hi|]. split; [exact Ht1|]. split; [exact Hu|].
  split; [exact Ht2|].
  rewrite <- (length_map called), Hl. reflexivity.
Defined.

(** X8: [init()] while entity [9] is current. *)
Lemma mover_init_effect_witness :
  exists s',
    mover_init mock_table mock_stale = Some (tt, s') /\
    cells (host s') get_entity_position_x 9 = f32_neg_2_0 /\
    cells (host s') get_entity_position_y 9 = f32_1_0 /\
    cells (host s') get_entity_position_x 7 = S754_zero false.
Proof.
  destruct (mover_init_effect mock_table cells mock_faithful mock_stale
              mock_stale_reachable) as (s' & Hrun & Hx & Hy & Hk).
  exists s'. split; [exact Hrun|]. split; [exact Hx|]. split; [exact Hy|].
  apply (Hk get_entity_position_x 7); discriminate.
Defined.

(** X9: [update(NaN)] for entity [7]. *)
Lemma mover_update_nan_witness :
  exists s',
    mover_update mock_table S754_nan mock_hit = Some (tt, s') /\
    cells (host s') get_entity_position_x 7 = S754_nan /\
    cells (host s') get_entity_position_y 7 = S754_nan.
Proof.
  exact (mover_update_nan mock_table cells mock_faithful mock_hit
           mock_hit_reachable).
Defined.

(** X10: [update(0.0)] for entity [7]. *)
Lemma mover_update_zero_witness :
  exists s',
    mover_update mock_table (S754_zero false) mock_hit = Some (tt, s') /\
    forall g i, cells (host s') g i = cells (host mock_hit) g i.
Proof.
  refine (mover_update_zero mock_table cells mock_faithful mock_hit
            mock_hit_reachable _ _); vm_compute; discriminate.
Defined.

(** X11: three calls of [update(0.5)] for entity [7]. *)
Lemma mover_updates_witness :
  exists s',
    run mock_table (replicate 3 (OpMoverUpdate f32_0_5)) mock_hit
    = Some (tt, s') /\
    cells (host s') get_entity_position_x 7
    = Nat.iter 3 (fun x => f32_add x (f32_mul f32_0_5 f32_1_01))
        (S754_zero false).
Proof.
  destruct (mover_updates_accumulate mock_table cells mock_faithful 3
              f32_0_5 mock_hit mock_hit_reachable)
    as (s' & Hrun & Hx & _).
  exists s'. split; [exact Hrun|exact Hx].
Defined.

(** X14: the flattened script with [dt = 0.5] from the initial state. *)
Lemma flat_mover_witness :
  exists fs',
    flat_mover_run mock_table f32_0_5 (flat_init_state mock_empty)
    = Some (tt, fs') /\
    cells (flat_host fs') get_entity_position_x 0 = mover_final_x /\
    length (flat_trace fs') = 3%nat.
Proof.
  destruct (flat_mover_moves_x mock_table cells mock_faithful f32_0_5
              (flat_init_state mock_empty)) as (fs' & Hrun & Hx & _ & Ht).
  exists fs'. split; [exact Hrun|].
  split; [etransitivity; [exact Hx|vm_compute; reflexivity]|].
  etransitivity; [exact (f_equal length Ht)|reflexivity].
Defined.

(** X15: both bridges from their initial states. *)
Lemma flat_and_nested_agree_witness :
  agree (flat_init_state mock_empty) (init_state mock_empty) /\
  exists fs' s',
    flat_write mock_table Y f32_1_01 (flat_init_state mock_empty)
    = Some (tt, fs') /\
    write_channel mock_table Position Y f32_1_01 (init_state mock_empty)
    = Some (tt, s') /\
    agree fs' s'.
Proof.
  assert (A : agree (flat_init_state mock_empty) (init_state mock_empty))
    by (repeat split).
  split; [exact A|].
  destruct (flat_and_nested_agree mock_table Y (flat_init_state mock_empty)
              (init_state mock_empty) (reach_init mock_table mock_empty) A)
    as [_ Hw].
  exact (Hw f32_1_01).
Defined.
